(** * betterforms.changelist: sort descriptors, bound headers and search

    A shallow embedding of [src/betterforms/changelist.py] (Python 2, Django):
    the sort codec [SortForm.clean_sorts], the order resolver
    [SortForm.get_order_by], the per-header view [BoundHeader] with its toggle
    [add_to_sorts], and the search filter of [SearchForm].

    Python integers are unbounded, so they are [Z].  The text of a form
    field is a Python 2 [unicode] string; it is a [string] here, each
    character read as the code point of the same number, so every text of
    code points below 256 is covered, and the character classes below are
    those of [unicode] on that range.  A call that can raise returns a
    [result]. *)

From Stdlib Require Import ZArith List String Ascii Bool Lia.
From Stdlib Require Import DecimalString DecimalZ DecimalPos.
Import ListNotations.

Local Open Scope string_scope.
Local Open Scope Z_scope.

(** ** Exceptions and the error monad *)

Inductive exn : Type :=
| ValidationError (message : string)   (* django.core.exceptions *)
| ImproperlyConfigured                 (* django.core.exceptions *)
| AttributeError
| ValueError
| IndexError
| KeyError.

Inductive result (A : Type) : Type :=
| Ok (a : A)
| Raise (e : exn).

Arguments Ok {A} a.
Arguments Raise {A} e.

Definition bind {A B : Type} (r : result A) (k : A -> result B) : result B :=
  match r with
  | Ok a => k a
  | Raise e => Raise e
  end.

Notation "x <- r ;; k" := (bind r (fun x => k))
  (at level 61, r at next level, right associativity).

(** [[f(x) for x in xs]]: the first call that raises ends the comprehension. *)
Fixpoint mapM {A B : Type} (f : A -> result B) (xs : list A) : result (list B) :=
  match xs with
  | [] => Ok []
  | x :: xs' => y <- f x ;; ys <- mapM f xs' ;; Ok (y :: ys)
  end.

(** ** The Python built-ins the module calls *)

Module Py.

(** The characters [unicode.isdigit] accepts: the decimal digits and, below
    256, the superscripts two, three and one (U+00B2, U+00B3, U+00B9), which
    are digits without being decimal. *)
Definition is_digit_char (c : ascii) : bool :=
  match c with
  | "0" | "1" | "2" | "3" | "4" | "5" | "6" | "7" | "8" | "9" => true
  | "178" | "179" | "185" => true
  | _ => false
  end%char.

(** The characters [unicode.isspace] accepts below 256: tab, line feed,
    vertical tab, form feed, carriage return, the four separators U+001C to
    U+001F, space, next line (U+0085) and no-break space (U+00A0). *)
Definition is_space_char (c : ascii) : bool :=
  match c with
  | "009" | "010" | "011" | "012" | "013" => true
  | "028" | "029" | "030" | "031" => true
  | " " | "133" | "160" => true
  | _ => false
  end%char.

Fixpoint all_chars (p : ascii -> bool) (s : string) : bool :=
  match s with
  | EmptyString => true
  | String c r => p c && all_chars p r
  end.

(** [bool(s)] of a string: true unless it is empty. *)
Definition truthy (s : string) : bool :=
  match s with
  | EmptyString => false
  | String _ _ => true
  end.

(** [s.isdigit()]: at least one character and all of them digits. *)
Definition isdigit (s : string) : bool := truthy s && all_chars is_digit_char s.

Fixpoint lstrip (p : ascii -> bool) (s : string) : string :=
  match s with
  | EmptyString => EmptyString
  | String c r => if p c then lstrip p r else s
  end.

Fixpoint rstrip (p : ascii -> bool) (s : string) : string :=
  match s with
  | EmptyString => EmptyString
  | String c r =>
      match rstrip p r with
      | EmptyString => if p c then EmptyString else String c EmptyString
      | r' => String c r'
      end
  end.

(** [s.strip(chars)] removes the characters of [chars] at both ends;
    [s.strip()] removes whitespace. *)
Definition strip_chars (p : ascii -> bool) (s : string) : string :=
  rstrip p (lstrip p s).

Definition strip_minus : string -> string := strip_chars (Ascii.eqb "-").
Definition strip : string -> string := strip_chars is_space_char.

(** [s.split(sep)] for a one-character separator: always at least one
    piece, empty pieces kept. *)
Fixpoint split (sep : ascii) (s : string) : list string :=
  match s with
  | EmptyString => [EmptyString]
  | String c r =>
      if Ascii.eqb c sep then EmptyString :: split sep r
      else match split sep r with
           | [] => [String c EmptyString]
           | w :: ws => String c w :: ws
           end
  end.

(** [sep.join(xs)]. *)
Definition join (sep : string) (xs : list string) : string := String.concat sep xs.

(** [str(n)] of an integer: decimal digits, a leading minus when negative. *)
Definition str (n : Z) : string := NilZero.string_of_int (Z.to_int n).

(** [int(s)] of a [unicode] string: surrounding whitespace is dropped, then
    an optional sign and at least one decimal digit; anything else, a
    superscript digit included, raises [ValueError]. *)
Definition int (s : string) : result Z :=
  let t := strip s in
  let parsed :=
    match t with
    | String c r =>
        if Ascii.eqb c "+" then option_map Decimal.Pos (NilZero.uint_of_string r)
        else NilZero.int_of_string t
    | EmptyString => None
    end in
  match parsed with
  | Some d => Ok (Z.of_int d)
  | None => Raise ValueError
  end.

(** [xs[i]] on a list or tuple: a negative index counts from the end and
    an index outside the sequence raises [IndexError]. *)
Definition getitem {A : Type} (xs : list A) (i : Z) : result A :=
  let n := Z.of_nat (List.length xs) in
  let j := if i <? 0 then i + n else i in
  if (j <? 0) || (n <=? j) then Raise IndexError
  else match nth_error xs (Z.to_nat j) with
       | Some x => Ok x
       | None => Raise IndexError
       end.

(** [xs.index(x)]: position of the first element equal to [x], [ValueError]
    when there is none. *)
Fixpoint index {A : Type} (eqb : A -> A -> bool) (x : A) (xs : list A) : result nat :=
  match xs with
  | [] => Raise ValueError
  | y :: ys => if eqb y x then Ok O else i <- index eqb x ys ;; Ok (S i)
  end.

(** [reduce(f, xs)] on a non-empty list: a left fold from the first element. *)
Definition reduce {A : Type} (f : A -> A -> A) (x : A) (xs : list A) : A :=
  fold_left f xs x.

End Py.

(** [x in xs] for a list of integers. *)
Definition contains (x : Z) (xs : list Z) : bool := existsb (fun y => y =? x) xs.

(** ** Header *)

Record Header : Type := {
  name : string;
  label : string;
  column_name : string;
  is_sortable : bool
}.

Section HeaderInit.
(** [django.forms.forms.pretty_name], which only the default label uses. *)
Variable pretty_name : string -> string.

(** [Header.__init__(name, label=None, column_name=False, is_sortable=True)]:
    a missing or empty [label] or [column_name] falls back on the name. *)
Definition Header_init (name : string) (label column_name : option string)
    (is_sortable : bool) : Header :=
  {| name := name;
     label := match label with
              | Some l => if Py.truthy l then l else pretty_name name
              | None => pretty_name name
              end;
     column_name := match column_name with
                    | Some c => if Py.truthy c then c else name
                    | None => name
                    end;
     is_sortable := is_sortable |}.
End HeaderInit.

(** Header objects have no [__eq__]: Python compares them by identity.  The
    registry holds each declared header once (names are unique, see
    [SortForm_init]), so comparing the fields identifies the same object. *)
Definition Header_eqb (a b : Header) : bool :=
  String.eqb (name a) (name b) && String.eqb (label a) (label b)
  && String.eqb (column_name a) (column_name b)
  && Bool.eqb (is_sortable a) (is_sortable b).

(** ** SortedDict: a dictionary that remembers insertion order *)

Definition SortedDict (V : Type) : Type := list (string * V).

(** [d[k] = v]: a known key keeps its place, a new key goes last. *)
Fixpoint SortedDict_set {V : Type} (d : SortedDict V) (k : string) (v : V) : SortedDict V :=
  match d with
  | [] => [(k, v)]
  | (k', v') :: r =>
      if String.eqb k' k then (k, v) :: r else (k', v') :: SortedDict_set r k v
  end.

Definition SortedDict_values {V : Type} (d : SortedDict V) : list V := map snd d.

(** [d[k]]: the value entered under [k], [KeyError] when there is none. *)
Fixpoint SortedDict_getitem {V : Type} (d : SortedDict V) (k : string) : result V :=
  match d with
  | [] => Raise KeyError
  | (k', v) :: r => if String.eqb k' k then Ok v else SortedDict_getitem r k
  end.

(** ** Querysets and Q objects of the host *)

Inductive Q : Type :=
| Q_kw (lookup value : string)   (* Q(lookup=value) *)
| Q_or (x y : Q).                (* x | y *)

Inductive QuerySet : Type :=
| objects_all (model : string)                  (* Model.objects.all() *)
| qs_filter (qs : QuerySet) (q : Q)             (* qs.filter(q) *)
| qs_order_by (qs : QuerySet) (by_ : list string).  (* qs.order_by(...) *)

Section QSemantics.
(** What a keyword lookup such as [name__icontains = abc] means on a row is
    the query layer's business. *)
Variable Row : Type.
Variable lookup_holds : string -> string -> Row -> bool.

Fixpoint Q_holds (q : Q) (row : Row) : bool :=
  match q with
  | Q_kw lookup value => lookup_holds lookup value row
  | Q_or x y => Q_holds x row || Q_holds y row
  end.
End QSemantics.

(** ** BaseChangeListForm *)

(** [BaseChangeListForm.__init__]: the [queryset] argument, else all objects
    of the class's [model]; [AttributeError] when there is neither. *)
Definition BaseChangeListForm_init (model : option string) (queryset : option QuerySet)
    : result QuerySet :=
  match queryset with
  | Some qs => Ok qs
  | None =>
      match model with
      | Some m => Ok (objects_all m)
      | None => Raise AttributeError
      end
  end.

(** ** SearchForm *)

Record SearchForm : Type := {
  SEARCH_FIELDS : list string;
  CASE_SENSITIVE : bool;
  search_base_queryset : QuerySet;
  (** [cleaned_data.get('q')], [None] when the key is absent *)
  cleaned_q : option string
}.

(** [SearchForm.__init__].  [cls_fields] is the class attribute
    [SEARCH_FIELDS] ([None] by default), [search_fields] the keyword argument:
    absent, or present with a value that may itself be [None]. *)
Definition SearchForm_init (cls_fields : option (list string)) (case_sensitive : bool)
    (model : option string) (search_fields : option (option (list string)))
    (queryset : option QuerySet) : result SearchForm :=
  let fields := match search_fields with
                | Some given => given
                | None => cls_fields
                end in
  base <- BaseChangeListForm_init model queryset ;;
  match fields with
  | None => Raise ImproperlyConfigured
  | Some fs =>
      Ok {| SEARCH_FIELDS := fs; CASE_SENSITIVE := case_sensitive;
            search_base_queryset := base; cleaned_q := None |}
  end.

(** [SearchForm.get_queryset]. *)
Definition SearchForm_get_queryset (self : SearchForm) : QuerySet :=
  let qs := search_base_queryset self in
  let q := Py.strip (match cleaned_q self with Some t => t | None => "" end) in
  if Py.truthy q then
    let args :=
      map (fun field =>
             if CASE_SENSITIVE self then Q_kw (field ++ "__contains") q
             else Q_kw (field ++ "__icontains") q)
          (SEARCH_FIELDS self) in
    match args with
    | a :: ((_ :: _) as rest) => qs_filter qs (Py.reduce Q_or a rest)
    | [a] => qs_filter qs a
    | [] => qs
    end
  else qs.

(** ** SortForm: the data of an instance *)

Inductive message_key : Type := unknown_header | unsortable_header.

(** [SortForm.error_messages]. *)
Definition error_messages (key : message_key) : string :=
  match key with
  | unknown_header => "Invalid sort parameter"
  | unsortable_header => "Invalid sort parameter"
  end.

Record SortForm : Type := {
  HEADERS : list Header;
  prefix : option string;
  sort_base_queryset : QuerySet;
  (** [cleaned_data]: absent on a form that was never cleaned (outer
      [None]); inside, the value under the key [sorts], absent (inner
      [None]) when the field failed validation *)
  cleaned_data : option (option (list Z));
  (** the [SortedDict] of the form's [HeaderSet] *)
  headers : SortedDict Header
}.

(** [cleaned_data.get('sorts', [])] on a dictionary. *)
Definition get_sorts (data : option (list Z)) : list Z :=
  match data with
  | Some sorts => sorts
  | None => []
  end.

(** ** ThingSet / HeaderSet

    A [HeaderSet] holds its form and a [SortedDict] of headers by name.  The
    form in turn holds the set, so the dictionary lives in the form record and
    the functions below take the form along. *)

(** [ThingSet.__init__]: headers are entered under their names, in order. *)
Definition HeaderSet_init (hs : list Header) : SortedDict Header :=
  fold_left (fun d h => SortedDict_set d (name h) h) hs [].

(** ** BoundHeader *)

Record BoundHeader : Type := {
  bh_name : string;
  bh_label : string;
  bh_column_name : string;
  bh_is_sortable : bool;
  form : SortForm;
  sorts : list Z;
  header : Header;
  param : string
}.

(** [BoundHeader.__init__(form, header)]. *)
Definition BoundHeader_init (form : SortForm) (header : Header) : BoundHeader :=
  {| bh_name := name header;
     bh_label := label header;
     bh_column_name := column_name header;
     bh_is_sortable := is_sortable header;
     form := form;
     sorts := match cleaned_data form with
              | Some data => get_sorts data
              | None => []
              end;
     header := header;
     param := Py.strip_minus
                ((match prefix form with Some p => p | None => "" end) ++ "-sorts") |}.

(** The keys [__getitem__] is given.  A Python 2 integer is an [int] or a
    [long] (beyond [sys.maxint], or written as [0L]), and only an [int]
    passes [isinstance(key, int)]; any other key, a name as a rule, is
    looked up in the dictionary. *)
Inductive item_key : Type :=
| int_key (i : Z)
| long_key (n : Z)
| name_key (s : string).

(** [HeaderSet.__getitem__]: an [int] indexes the values; a [long] is
    looked up like a name, and no header is entered under a number. *)
Definition HeaderSet_getitem (form : SortForm) (key : item_key) : result BoundHeader :=
  match key with
  | int_key i =>
      h <- Py.getitem (SortedDict_values (headers form)) i ;;
      Ok (BoundHeader_init form h)
  | long_key _ => Raise KeyError
  | name_key s =>
      h <- SortedDict_getitem (headers form) s ;;
      Ok (BoundHeader_init form h)
  end.

(** [HeaderSet.__iter__]. *)
Definition HeaderSet_iter (form : SortForm) : list BoundHeader :=
  map (BoundHeader_init form) (SortedDict_values (headers form)).

Definition _index (self : BoundHeader) : result nat :=
  Py.index Header_eqb (header self) (HEADERS (form self)).

Definition _sort_index (self : BoundHeader) : result Z :=
  i <- _index self ;; Ok (Z.of_nat i + 1).

Definition is_active (self : BoundHeader) : result bool :=
  k <- _sort_index self ;; Ok (contains k (map Z.abs (sorts self))).

Definition is_ascending (self : BoundHeader) : result bool :=
  active <- is_active self ;;
  if active then k <- _sort_index self ;; Ok (contains k (sorts self))
  else Ok false.

Definition is_descending (self : BoundHeader) : result bool :=
  active <- is_active self ;;
  if active then k <- _sort_index self ;; Ok (negb (contains k (sorts self)))
  else Ok false.

Definition css_classes (self : BoundHeader) : result string :=
  active <- is_active self ;;
  classes <-
    (if active then
       k <- _sort_index self ;;
       Ok (["active"] ++ (if contains k (sorts self) then ["ascending"] else ["descending"]))%list
     else Ok []) ;;
  Ok (Py.join " " classes).

(** [BoundHeader.add_to_sorts]: the sorts to use once this header is clicked. *)
Definition add_to_sorts (self : BoundHeader) : result (list Z) :=
  k <- _sort_index self ;;
  match sorts self with
  | first :: rest =>
      if Z.abs first =? k then Ok ([-1 * first] ++ rest)%list
      else Ok ([k] ++ filter (fun x => negb (Z.abs x =? k)) (sorts self))%list
  | [] => Ok ([k] ++ filter (fun x => negb (Z.abs x =? k)) (sorts self))%list
  end.

Definition priority (self : BoundHeader) : result (option Z) :=
  active <- is_active self ;;
  if active then
    k <- _sort_index self ;;
    i <- Py.index Z.eqb k (map Z.abs (sorts self)) ;;
    Ok (Some (Z.of_nat i + 1))
  else Ok None.

(** ['.'.join(map(str, sorts))], the text of a descriptor in a link. *)
Definition encode_sorts (sorts : list Z) : string := Py.join "." (map Py.str sorts).

(** The three link properties hand [construct_querystring] the form's data
    and one override, [param] bound to the text below; the merge into the
    request's parameters and [urllib.urlencode] are the host's. *)
Definition querystring (self : BoundHeader) : result (string * string) :=
  next <- add_to_sorts self ;; Ok (param self, encode_sorts next).

Definition singular_querystring (self : BoundHeader) : result (string * string) :=
  k <- _sort_index self ;; Ok (param self, Py.str k).

(** [self.add_to_sorts()[1:]], the descriptor of the remove link. *)
Definition remove_sorts (self : BoundHeader) : result (list Z) :=
  next <- add_to_sorts self ;; Ok (tl next).

Definition remove_querystring (self : BoundHeader) : result (string * string) :=
  rest <- remove_sorts self ;; Ok (param self, encode_sorts rest).

(** ** SortForm: the methods *)

(** [len(set(xs))] of a list of strings. *)
Definition count_distinct (xs : list string) : nat := List.length (nodup string_dec xs).

(** [SortForm.__init__]: the base queryset, then the check that no two
    headers share a name, then the header set. *)
Definition SortForm_init (HEADERS : list Header) (prefix : option string)
    (model : option string) (queryset : option QuerySet) : result SortForm :=
  base <- BaseChangeListForm_init model queryset ;;
  if negb (Nat.eqb (count_distinct (map name HEADERS)) (List.length HEADERS))
  then Raise AttributeError
  else Ok {| HEADERS := HEADERS; prefix := prefix; sort_base_queryset := base;
             cleaned_data := None; headers := HeaderSet_init HEADERS |}.

(** [all(HEADERS[abs(i) - 1].is_sortable for i in sorts)]: the generator is
    consumed up to the first header that is not sortable. *)
Fixpoint all_sortable (hs : list Header) (sorts : list Z) : result bool :=
  match sorts with
  | [] => Ok true
  | i :: rest =>
      h <- Py.getitem hs (Z.abs i - 1) ;;
      if is_sortable h then all_sortable hs rest else Ok false
  end.

(** [SortForm.clean_sorts]; [raw] is [cleaned_data.get('sorts', '')], the
    text of the field. *)
Definition clean_sorts (self : SortForm) (raw : string) : result (list Z) :=
  let sorts := filter Py.truthy (Py.split "." raw) in
  match sorts with
  | [] => Ok []
  | _ :: _ =>
      if negb (forallb (fun sort => Py.isdigit (Py.strip_minus sort)) sorts)
      then Raise (ValidationError (error_messages unknown_header))
      else
        sorts <- mapM Py.int sorts ;;
        if existsb (fun sort => Z.abs sort >? Z.of_nat (List.length (HEADERS self))) sorts
        then Raise (ValidationError (error_messages unknown_header))
        else
          sortable <- all_sortable (HEADERS self) sorts ;;
          if negb sortable
          then Raise (ValidationError (error_messages unsortable_header))
          else Ok sorts
  end.

(** What Django's [BaseForm._clean_fields] does with the field during
    [full_clean]: the value [clean_sorts] returns is stored under [sorts]; a
    [ValidationError] is recorded and the key removed; any other exception
    escapes. *)
Definition _clean_fields (self : SortForm) (raw : string) : result SortForm :=
  let store data :=
    {| HEADERS := HEADERS self; prefix := prefix self;
       sort_base_queryset := sort_base_queryset self;
       cleaned_data := Some data; headers := headers self |} in
  match clean_sorts self raw with
  | Ok sorts => Ok (store (Some sorts))
  | Raise (ValidationError _) => Ok (store None)
  | Raise e => Raise e
  end.

(** [SortForm.get_order_by].  The sorts that [clean_sorts] stores are no
    larger than the number of headers, so they and [abs(sort) - 1] are of
    type [int]. *)
Definition get_order_by (self : SortForm) : result (list string) :=
  match cleaned_data self with
  | None => Raise AttributeError
  | Some data =>
      mapM (fun sort =>
              bound <- HeaderSet_getitem self (int_key (Z.abs sort - 1)) ;;
              let param := bh_column_name bound in
              Ok (if sort <? 0 then "-" ++ param else param))
           (get_sorts data)
  end.

(** [SortForm.get_queryset]. *)
Definition SortForm_get_queryset (self : SortForm) : result QuerySet :=
  let qs := sort_base_queryset self in
  order_by <- get_order_by self ;;
  match order_by with
  | [] => Ok qs
  | _ :: _ => Ok (qs_order_by qs order_by)
  end.

(** ** What the specification calls "the other elements, in order" *)

(** [without_magnitude k xs ys]: [ys] is [xs] with exactly the elements of
    magnitude [k] deleted, the others in their original order. *)
Inductive without_magnitude (k : Z) : list Z -> list Z -> Prop :=
| wm_nil : without_magnitude k [] []
| wm_drop x xs ys :
    Z.abs x = k -> without_magnitude k xs ys -> without_magnitude k (x :: xs) ys
| wm_keep x xs ys :
    Z.abs x <> k -> without_magnitude k xs ys -> without_magnitude k (x :: xs) (x :: ys).

(** ** What [clean_sorts] checks of each sort *)

(** [passes_checks hs s]: the magnitude of [s] is at most the number of
    headers, and the header that [hs[abs(s) - 1]] reads is sortable. *)
Definition passes_checks (hs : list Header) (s : Z) : Prop :=
  Z.abs s <= Z.of_nat (List.length hs) /\
  exists h, Py.getitem hs (Z.abs s - 1) = Ok h /\ is_sortable h = true.

(** ** Sample forms *)

Definition title_header : Header :=
  {| name := "title"; label := "Title"; column_name := "title"; is_sortable := true |}.

Definition date_header : Header :=
  {| name := "date"; label := "Date"; column_name := "created"; is_sortable := true |}.

Definition books : QuerySet := objects_all "Book".

Definition two_column_form (data : option (option (list Z))) : SortForm :=
  {| HEADERS := [title_header; date_header]; prefix := None;
     sort_base_queryset := books; cleaned_data := data;
     headers := HeaderSet_init [title_header; date_header] |}.

Definition one_column_form (data : option (option (list Z))) : SortForm :=
  {| HEADERS := [title_header]; prefix := None;
     sort_base_queryset := books; cleaned_data := data;
     headers := HeaderSet_init [title_header] |}.

Definition notes_header : Header :=
  {| name := "notes"; label := "Notes"; column_name := "notes"; is_sortable := false |}.

Definition three_column_form (data : option (option (list Z))) : SortForm :=
  {| HEADERS := [title_header; date_header; notes_header]; prefix := Some "books";
     sort_base_queryset := books; cleaned_data := data;
     headers := HeaderSet_init [title_header; date_header; notes_header] |}.

(** * Properties *)

(** ** The model on small inputs *)

Example str_negative : Py.str (-12) = "-12".
Proof. reflexivity. Qed.

Example int_signed : Py.int " -012 " = Ok (-12) /\ Py.int "+7" = Ok 7.
Proof. split; reflexivity. Qed.

Example int_rejects :
  Py.int "--1" = Raise ValueError /\ Py.int "1-" = Raise ValueError /\
  Py.int "+-7" = Raise ValueError /\ Py.int "" = Raise ValueError.
Proof. repeat split. Qed.

Example split_keeps_empty : Py.split "." "2.-1..3." = ["2"; "-1"; ""; "3"; ""].
Proof. reflexivity. Qed.

Example strip_both_ends : Py.strip_minus "--1-" = "1" /\ Py.strip "  a b  " = "a b".
Proof. split; reflexivity. Qed.

Example strip_unicode_blanks :
  Py.strip (String "031" (String "160" " a ")) = "a" /\
  Py.strip (String "031" EmptyString) = "" /\
  SearchForm_get_queryset
    {| SEARCH_FIELDS := ["name"]; CASE_SENSITIVE := false;
       search_base_queryset := objects_all "Book";
       cleaned_q := Some (String "031" EmptyString) |}
  = objects_all "Book".
Proof. repeat split. Qed.

Example superscript_is_digit_not_decimal :
  Py.isdigit (String "178" EmptyString) = true /\
  Py.int (String "178" EmptyString) = Raise ValueError.
Proof. split; reflexivity. Qed.

Example getitem_wraps :
  Py.getitem [1; 2; 3] (-1) = Ok 3 /\ Py.getitem [1; 2; 3] 3 = Raise IndexError /\
  Py.getitem (@nil Z) (-1) = Raise IndexError.
Proof. repeat split. Qed.

Example init_two_columns :
  SortForm_init [title_header; date_header] None None (Some books)
  = Ok (two_column_form None).
Proof. reflexivity. Qed.

Example init_duplicate_names :
  SortForm_init [title_header; title_header] None None (Some books) = Raise AttributeError.
Proof. reflexivity. Qed.

Example clean_two_sorts :
  clean_sorts (two_column_form None) "2.-1" = Ok [2; -1] /\
  clean_sorts (two_column_form None) "" = Ok [] /\
  _clean_fields (two_column_form None) "2.-1" = Ok (two_column_form (Some (Some [2; -1]))).
Proof. repeat split. Qed.

Example clean_rejects :
  clean_sorts (two_column_form None) "a" = Raise (ValidationError "Invalid sort parameter") /\
  clean_sorts (two_column_form None) "3" = Raise (ValidationError "Invalid sort parameter") /\
  _clean_fields (two_column_form None) "3" = Ok (two_column_form (Some None)).
Proof. repeat split. Qed.

Example order_by_two_sorts :
  get_order_by (two_column_form (Some (Some [2; -1]))) = Ok ["created"; "-title"] /\
  SortForm_get_queryset (two_column_form (Some (Some [2; -1])))
  = Ok (qs_order_by books ["created"; "-title"]).
Proof. split; reflexivity. Qed.

Example click_title :
  let self := BoundHeader_init (two_column_form (Some (Some [2; -1]))) title_header in
  add_to_sorts self = Ok [1; 2] /\ css_classes self = Ok "active descending" /\
  priority self = Ok (Some 2) /\ querystring self = Ok ("sorts", "1.2") /\
  remove_querystring self = Ok ("sorts", "2").
Proof. repeat split. Qed.

Example click_twice_from_empty :
  add_to_sorts (BoundHeader_init (two_column_form (Some (Some []))) date_header) = Ok [2] /\
  add_to_sorts (BoundHeader_init (two_column_form (Some (Some [2]))) date_header) = Ok [-2].
Proof. split; reflexivity. Qed.

(** ** The built-ins *)

Lemma bind_ok {A B : Type} (r : result A) (k : A -> result B) (b : B) :
  bind r k = Ok b -> exists a, r = Ok a /\ k a = Ok b.
Proof.
  destruct r as [a|e]; simpl; intros H; [exists a; auto | discriminate].
Qed.

Lemma contains_In (k : Z) (xs : list Z) : contains k xs = true <-> In k xs.
Proof.
  unfold contains. rewrite existsb_exists. split.
  - intros [y [Hin Hy]]. apply Z.eqb_eq in Hy. now subst.
  - intros Hin. exists k. split; [assumption | apply Z.eqb_refl].
Qed.

Section IndexFacts.
Context {A : Type} (eqb : A -> A -> bool).

Lemma index_found (x : A) (xs : list A) (i : nat) :
  Py.index eqb x xs = Ok i ->
  (exists y, nth_error xs i = Some y /\ eqb y x = true) /\
  (forall j y, (j < i)%nat -> nth_error xs j = Some y -> eqb y x = false).
Proof.
  revert i. induction xs as [|y ys IH]; simpl; intros i H; [discriminate|].
  destruct (eqb y x) eqn:E.
  - injection H as <-. split; [exists y; auto | intros j z Hj; lia].
  - apply bind_ok in H. destruct H as [i' [Hi' Hi]]. injection Hi as <-.
    destruct (IH _ Hi') as [Hex Hbefore]. split; [exact Hex|].
    intros [|j] z Hj Hz; simpl in Hz.
    + now injection Hz as <-.
    + apply (Hbefore j); [lia | assumption].
Qed.

Lemma index_first (x : A) (xs : list A) (i : nat) (y : A) :
  nth_error xs i = Some y -> eqb y x = true ->
  (forall j z, (j < i)%nat -> nth_error xs j = Some z -> eqb z x = false) ->
  Py.index eqb x xs = Ok i.
Proof.
  revert i. induction xs as [|z zs IH]; intros [|i] Hn Hy Hb; simpl in *; try discriminate.
  - injection Hn as ->. now rewrite Hy.
  - rewrite (Hb O z) by (lia || reflexivity).
    rewrite (IH i Hn Hy); [reflexivity|].
    intros j w Hj Hw. apply (Hb (S j)); [lia | exact Hw].
Qed.

Lemma index_exists (x : A) (xs : list A) :
  (exists y, In y xs /\ eqb y x = true) -> exists i, Py.index eqb x xs = Ok i.
Proof.
  induction xs as [|z zs IH]; intros [y [Hin Hy]]; simpl in *; [contradiction|].
  destruct (eqb z x) eqn:E; [now exists O|].
  destruct Hin as [-> | Hin]; [congruence|].
  destruct IH as [i Hi]; [now exists y|]. rewrite Hi. now exists (S i).
Qed.
End IndexFacts.

Lemma Header_eqb_eq (a b : Header) : Header_eqb a b = true <-> a = b.
Proof.
  destruct a, b; unfold Header_eqb; simpl.
  rewrite !andb_true_iff, !String.eqb_eq, Bool.eqb_true_iff. split.
  - intros [[[-> ->] ->] ->]. reflexivity.
  - intros [= -> -> -> ->]. auto.
Qed.

(** In a registry with unique names, a header's index is its position. *)
Lemma index_of_header (hs : list Header) (i : nat) (h : Header) :
  NoDup (map name hs) -> nth_error hs i = Some h ->
  Py.index Header_eqb h hs = Ok i.
Proof.
  intros Hnd Hi. apply index_first with (y := h); auto.
  - now apply Header_eqb_eq.
  - intros j z Hj Hz. destruct (Header_eqb z h) eqn:E; [|reflexivity].
    apply Header_eqb_eq in E. subst z. exfalso.
    assert (Hlen : (j < List.length (map name hs))%nat).
    { rewrite length_map. apply nth_error_Some. congruence. }
    pose proof (proj1 (NoDup_nth_error (map name hs)) Hnd j i Hlen) as Heq.
    rewrite !nth_error_map, Hz, Hi in Heq. specialize (Heq eq_refl). lia.
Qed.

Lemma sort_index_positive (self : BoundHeader) (k : Z) :
  _sort_index self = Ok k -> 1 <= k.
Proof.
  unfold _sort_index. intros H. apply bind_ok in H.
  destruct H as [i [_ Hk]]. injection Hk as <-. lia.
Qed.

(** ** The toggle *)

Lemma without_magnitude_filter (k : Z) (xs : list Z) :
  without_magnitude k xs (filter (fun x => negb (Z.abs x =? k)) xs).
Proof.
  induction xs as [|x xs IH]; simpl; [constructor|].
  destruct (Z.eqb_spec (Z.abs x) k); simpl; now constructor.
Qed.

Lemma without_magnitude_unique (k : Z) (xs ys zs : list Z) :
  without_magnitude k xs ys -> without_magnitude k xs zs -> ys = zs.
Proof.
  intros H. revert zs. induction H; intros zs Hz; inversion Hz; subst;
    try contradiction; auto.
  f_equal. auto.
Qed.

Lemma without_magnitude_absent (k : Z) (xs : list Z) :
  ~ In k (map Z.abs xs) -> without_magnitude k xs xs.
Proof.
  induction xs as [|x xs IH]; simpl; intros H; constructor; tauto.
Qed.

Lemma without_magnitude_clears (k : Z) (xs ys : list Z) :
  without_magnitude k xs ys -> ~ In k (map Z.abs ys).
Proof.
  induction 1; simpl; intuition.
Qed.

Lemma filter_magnitudes (k : Z) (xs : list Z) :
  ~ In k (map Z.abs (filter (fun x => negb (Z.abs x =? k)) xs)).
Proof.
  rewrite in_map_iff. intros [x [Hx Hin]]. apply filter_In in Hin.
  destruct Hin as [_ Hne]. apply negb_true_iff, Z.eqb_neq in Hne. contradiction.
Qed.

Lemma NoDup_filter_magnitudes (p : Z -> bool) (xs : list Z) :
  NoDup (map Z.abs xs) -> NoDup (map Z.abs (filter p xs)).
Proof.
  induction xs as [|x xs IH]; simpl; intros H; [constructor|].
  inversion H as [|? ? Hnotin Hrest]; subst.
  destruct (p x); simpl; auto. constructor; auto.
  intros Hin. apply Hnotin. rewrite in_map_iff in *.
  destruct Hin as [y [Hy Hin]]. exists y. split; auto.
  apply filter_In in Hin. tauto.
Qed.

(** C1. Clicking a header whose index is the magnitude of the first sort
    flips that first sort's sign and leaves the rest in place; otherwise the
    result is [+k] followed by the current sorts of another magnitude, in
    their original order. *)
Theorem add_to_sorts_toggle (self : BoundHeader) (k : Z) :
  _sort_index self = Ok k ->
  (forall first rest,
      sorts self = first :: rest -> Z.abs first = k ->
      add_to_sorts self = Ok (- first :: rest)) /\
  (~ (exists first rest, sorts self = first :: rest /\ Z.abs first = k) ->
   exists others,
     add_to_sorts self = Ok (k :: others) /\ without_magnitude k (sorts self) others).
Proof.
  intros Hk. unfold add_to_sorts. rewrite Hk. cbn [bind app]. split.
  - intros first rest -> Hfirst. rewrite (proj2 (Z.eqb_eq _ _) Hfirst).
    apply f_equal. apply (f_equal (fun x => x :: rest)). lia.
  - intros Hnot. eexists. split; [|apply without_magnitude_filter].
    destruct (sorts self) as [|first rest] eqn:E; [reflexivity|].
    destruct (Z.eqb_spec (Z.abs first) k) as [Heq|]; [|reflexivity].
    exfalso. apply Hnot. now exists first, rest.
Qed.

Lemma add_to_sorts_toggle_witness :
  let self := BoundHeader_init (two_column_form (Some (Some [2; -1]))) date_header in
  add_to_sorts self = Ok [-2; -1].
Proof.
  intros self.
  exact (proj1 (add_to_sorts_toggle self 2 eq_refl) 2 [-1] eq_refl eq_refl).
Defined.

(** C10. On sorts of pairwise distinct magnitudes the toggle returns a
    non-empty list that starts with magnitude [k] and again has pairwise
    distinct magnitudes. *)
Theorem add_to_sorts_keeps_distinct (self : BoundHeader) (k : Z) :
  _sort_index self = Ok k ->
  NoDup (map Z.abs (sorts self)) ->
  exists first rest,
    add_to_sorts self = Ok (first :: rest) /\
    Z.abs first = k /\
    NoDup (map Z.abs (first :: rest)).
Proof.
  intros Hk Hnd. pose proof (sort_index_positive _ _ Hk) as Hpos.
  unfold add_to_sorts. rewrite Hk. cbn [bind app].
  assert (Hpromote :
    Z.abs k = k /\
    NoDup (map Z.abs (k :: filter (fun x => negb (Z.abs x =? k)) (sorts self)))).
  { split; [lia|]. simpl. constructor.
    - replace (Z.abs k) with k by lia. apply filter_magnitudes.
    - now apply NoDup_filter_magnitudes. }
  destruct (sorts self) as [|s rest] eqn:E.
  - eexists _, _. split; [reflexivity | exact Hpromote].
  - destruct (Z.eqb_spec (Z.abs s) k) as [Heq|Hne].
    + exists (-1 * s), rest. split; [reflexivity|]. split; [lia|].
      cbn [map] in *. replace (Z.abs (-1 * s)) with (Z.abs s) by lia. exact Hnd.
    + eexists _, _. split; [reflexivity | exact Hpromote].
Qed.

Lemma add_to_sorts_keeps_distinct_witness :
  exists first rest,
    add_to_sorts (BoundHeader_init (two_column_form (Some (Some [2; -1]))) title_header)
      = Ok (first :: rest) /\
    Z.abs first = 1 /\ NoDup (map Z.abs (first :: rest)).
Proof.
  apply (add_to_sorts_keeps_distinct
           (BoundHeader_init (two_column_form (Some (Some [2; -1]))) title_header) 1).
  - reflexivity.
  - simpl. repeat constructor; simpl; intuition lia.
Defined.

(** ** The remove link *)

(** C9, as amended. When no sort after the first shares magnitude [k] with
    the first, the toggle result without its first element is the current
    list of sorts with every sort of magnitude [k] deleted and the others in
    their original order. *)
Theorem remove_sorts_deletes (self : BoundHeader) (k : Z) :
  _sort_index self = Ok k ->
  (forall first rest,
      sorts self = first :: rest -> Z.abs first = k -> ~ In k (map Z.abs rest)) ->
  exists others,
    remove_sorts self = Ok others /\ without_magnitude k (sorts self) others.
Proof.
  intros Hk Hhead. unfold remove_sorts, add_to_sorts. rewrite Hk. cbn [bind app].
  destruct (sorts self) as [|first rest] eqn:E.
  - exists []. split; [reflexivity | constructor].
  - destruct (Z.eqb_spec (Z.abs first) k) as [Heq|Hne]; cbn [bind tl].
    + exists rest. split; [reflexivity|].
      apply wm_drop; [exact Heq|].
      apply without_magnitude_absent. now apply (Hhead first rest).
    + eexists. split; [reflexivity | apply without_magnitude_filter].
Qed.

Lemma remove_sorts_deletes_witness :
  exists others,
    remove_sorts (BoundHeader_init (two_column_form (Some (Some [2; -1]))) date_header)
      = Ok others /\
    without_magnitude 2 [2; -1] others.
Proof.
  apply (remove_sorts_deletes
           (BoundHeader_init (two_column_form (Some (Some [2; -1]))) date_header) 2).
  - reflexivity.
  - intros first rest [= <- <-] _. simpl. intuition lia.
Defined.

(** In particular on sorts of pairwise distinct magnitudes. *)
Corollary remove_sorts_on_distinct (self : BoundHeader) (k : Z) :
  _sort_index self = Ok k ->
  NoDup (map Z.abs (sorts self)) ->
  exists others,
    remove_sorts self = Ok others /\ without_magnitude k (sorts self) others.
Proof.
  intros Hk Hnd. destruct (sorts self) as [|first rest] eqn:E.
  - unfold remove_sorts, add_to_sorts. rewrite Hk, E. exists []. split; [reflexivity | constructor].
  - unfold remove_sorts, add_to_sorts. rewrite Hk, E. cbn [bind app].
    inversion Hnd as [|? ? Hnotin _]; subst.
    destruct (Z.eqb_spec (Z.abs first) k) as [Heq|Hne]; cbn [bind tl].
    + exists rest. split; [reflexivity|]. apply wm_drop; [exact Heq|].
      apply without_magnitude_absent. now rewrite <- Heq.
    + eexists. split; [reflexivity | apply without_magnitude_filter].
Qed.

(** C9, as stated, fails on sorts that repeat a magnitude: the text [1.-1]
    is accepted for a single sortable column, and the remove link of that
    column still sorts by it. *)
Lemma remove_sorts_keeps_repeated_magnitude :
  let cleaned := one_column_form (Some (Some [1; -1])) in
  let self := BoundHeader_init cleaned title_header in
  _clean_fields (one_column_form None) "1.-1" = Ok cleaned /\
  _sort_index self = Ok 1 /\
  sorts self = [1; -1] /\
  remove_sorts self = Ok [-1] /\
  ~ without_magnitude 1 (sorts self) [-1].
Proof.
  repeat split; try reflexivity.
  intros H. apply without_magnitude_clears in H. apply H. simpl. auto.
Qed.

(** ** Bound header state *)

(** C6. For the header at position [i] of a registry with unique names, the
    sort index is [i + 1]; the header is active iff that index is among the
    magnitudes of the sorts, ascending iff active and the index itself is
    among the sorts, descending iff active and not ascending; its priority is
    the 1-based position of the first sort of that magnitude when active and
    [None] otherwise; its css classes name the state. *)
Theorem bound_header_state (f : SortForm) (i : nat) (h : Header) :
  NoDup (map name (HEADERS f)) ->
  nth_error (HEADERS f) i = Some h ->
  let self := BoundHeader_init f h in
  let k := Z.of_nat i + 1 in
  let d := sorts self in
  _sort_index self = Ok k /\
  exists active ascending descending,
    is_active self = Ok active /\
    is_ascending self = Ok ascending /\
    is_descending self = Ok descending /\
    (active = true <-> In k (map Z.abs d)) /\
    (ascending = true <-> active = true /\ In k d) /\
    (descending = true <-> active = true /\ ascending <> true) /\
    (active = true ->
     exists p, priority self = Ok (Some (Z.of_nat p + 1)) /\
               nth_error (map Z.abs d) p = Some k /\
               forall j, (j < p)%nat -> nth_error (map Z.abs d) j <> Some k) /\
    (active = false -> priority self = Ok None) /\
    css_classes self =
      Ok (if active
          then if ascending then "active ascending" else "active descending"
          else "").
Proof.
  intros Hnd Hi self k d.
  assert (Hk : _sort_index self = Ok k).
  { unfold _sort_index, _index. cbn [self BoundHeader_init header form].
    rewrite (index_of_header _ _ _ Hnd Hi). reflexivity. }
  split; [exact Hk|].
  exists (contains k (map Z.abs d)),
         (contains k (map Z.abs d) && contains k d),
         (contains k (map Z.abs d) && negb (contains k d)).
  unfold is_ascending, is_descending, css_classes, priority, is_active.
  rewrite Hk. cbn [bind]. fold d.
  pose proof (contains_In k (map Z.abs d)) as Hact.
  pose proof (contains_In k d) as Hasc.
  assert (Hprio : In k (map Z.abs d) ->
            exists p, Py.index Z.eqb k (map Z.abs d) = Ok p /\
                      nth_error (map Z.abs d) p = Some k /\
                      forall j, (j < p)%nat -> nth_error (map Z.abs d) j <> Some k).
  { intros Hin. destruct (index_exists Z.eqb k (map Z.abs d)) as [p Hp].
    { exists k. split; [exact Hin | apply Z.eqb_refl]. }
    exists p. split; [exact Hp|].
    destruct (index_found Z.eqb k (map Z.abs d) p Hp) as [[y [Hy Hyk]] Hbefore].
    apply Z.eqb_eq in Hyk. subst y. split; [exact Hy|].
    intros j Hj Hnth. specialize (Hbefore j k Hj Hnth).
    rewrite Z.eqb_refl in Hbefore. discriminate. }
  destruct (contains k (map Z.abs d)) eqn:Eact; cbn [bind andb].
  - destruct (Hprio (proj1 Hact eq_refl)) as [p [Hp [Hnth Hbefore]]].
    rewrite Hp. cbn [bind].
    destruct (contains k d) eqn:Ec; cbn [negb];
      repeat split; try tauto; try discriminate; try congruence.
    + intros _. exists p. auto.
    + intros _. exists p. auto.
  - repeat split; try tauto; try discriminate; try congruence;
      try (intros [? ?]; discriminate).
Qed.

Lemma bound_header_state_witness :
  let self := BoundHeader_init (two_column_form (Some (Some [2; -1]))) title_header in
  _sort_index self = Ok 1 /\
  exists active ascending descending,
    is_active self = Ok active /\
    is_ascending self = Ok ascending /\
    is_descending self = Ok descending /\
    (active = true <-> In 1 (map Z.abs [2; -1])) /\
    (ascending = true <-> active = true /\ In 1 [2; -1]) /\
    (descending = true <-> active = true /\ ascending <> true) /\
    (active = true ->
     exists p, priority self = Ok (Some (Z.of_nat p + 1)) /\
               nth_error (map Z.abs [2; -1]) p = Some 1 /\
               forall j, (j < p)%nat -> nth_error (map Z.abs [2; -1]) j <> Some 1) /\
    (active = false -> priority self = Ok None) /\
    css_classes self =
      Ok (if active
          then if ascending then "active ascending" else "active descending"
          else "").
Proof.
  apply (bound_header_state (two_column_form (Some (Some [2; -1]))) 0 title_header).
  - simpl. repeat constructor; simpl; intuition discriminate.
  - reflexivity.
Defined.

(** ** Construction of a sort form *)

Lemma nodup_length_le (xs : list string) :
  (List.length (nodup string_dec xs) <= List.length xs)%nat.
Proof.
  induction xs as [|x xs IH]; simpl; [lia|].
  destruct (in_dec string_dec x xs); simpl; lia.
Qed.

Lemma count_distinct_all (xs : list string) :
  count_distinct xs = List.length xs -> NoDup xs.
Proof.
  unfold count_distinct. induction xs as [|x xs IH]; simpl; [constructor|].
  pose proof (nodup_length_le xs) as Hle.
  destruct (in_dec string_dec x xs) as [Hin|Hnotin]; simpl; intros Hlen; [lia|].
  constructor; [exact Hnotin | apply IH; lia].
Qed.

(** A form that [SortForm.__init__] returns has unique header names and a
    header set filled from its registry; cleaning changes neither. *)
Lemma SortForm_init_registry (hs : list Header) (pre : option string)
    (model : option string) (queryset : option QuerySet) (f : SortForm) :
  SortForm_init hs pre model queryset = Ok f ->
  HEADERS f = hs /\ NoDup (map name (HEADERS f)) /\
  headers f = HeaderSet_init (HEADERS f).
Proof.
  unfold SortForm_init. intros H. apply bind_ok in H. destruct H as [base [_ H]].
  destruct (Nat.eqb_spec (count_distinct (map name hs)) (List.length hs)) as [Heq|];
    simpl in H; [|discriminate].
  injection H as <-. simpl. repeat split.
  apply count_distinct_all. now rewrite length_map.
Qed.

Lemma clean_fields_registry (f g : SortForm) (raw : string) :
  _clean_fields f raw = Ok g -> HEADERS g = HEADERS f /\ headers g = headers f.
Proof.
  unfold _clean_fields. destruct (clean_sorts f raw) as [l|[]]; intros [= <-]; auto.
Qed.

(** ** The order resolver *)

Lemma SortedDict_set_new {V : Type} (d : SortedDict V) (k : string) (v : V) :
  ~ In k (map fst d) -> SortedDict_set d k v = (d ++ [(k, v)])%list.
Proof.
  induction d as [|[k' v'] r IH]; simpl; intros Hnew; [reflexivity|].
  destruct (String.eqb_spec k' k) as [->|_]; [tauto|].
  rewrite IH by tauto. reflexivity.
Qed.

Lemma HeaderSet_fold (hs : list Header) (d : SortedDict Header) :
  NoDup (map fst d ++ map name hs) ->
  fold_left (fun d h => SortedDict_set d (name h) h) hs d
  = (d ++ map (fun h => (name h, h)) hs)%list.
Proof.
  revert d. induction hs as [|h hs IH]; simpl; intros d Hnd.
  - now rewrite app_nil_r.
  - rewrite SortedDict_set_new.
    + rewrite IH.
      * rewrite <- app_assoc. reflexivity.
      * rewrite map_app. simpl. rewrite <- app_assoc. exact Hnd.
    + apply NoDup_remove_2 in Hnd. intros Hin. apply Hnd. apply in_or_app. now left.
Qed.

(** With unique names the header set lists the registry as declared. *)
Lemma HeaderSet_values (hs : list Header) :
  NoDup (map name hs) -> SortedDict_values (HeaderSet_init hs) = hs.
Proof.
  intros Hnd. unfold HeaderSet_init, SortedDict_values.
  rewrite HeaderSet_fold by exact Hnd. simpl.
  rewrite map_map. simpl. apply map_id.
Qed.

Lemma getitem_in_range {A : Type} (xs : list A) (j : Z) :
  0 <= j < Z.of_nat (List.length xs) ->
  exists x, Py.getitem xs j = Ok x /\ nth_error xs (Z.to_nat j) = Some x.
Proof.
  intros Hj. unfold Py.getitem. cbv zeta.
  assert (Hlow : (j <? 0) = false) by (apply Z.ltb_ge; lia).
  assert (Hhigh : (Z.of_nat (List.length xs) <=? j) = false) by (apply Z.leb_gt; lia).
  rewrite Hlow. cbv iota. rewrite Hlow, Hhigh. cbn [orb].
  destruct (nth_error xs (Z.to_nat j)) as [x|] eqn:E; [now exists x|].
  apply nth_error_None in E. lia.
Qed.

Lemma mapM_Forall2 {A B : Type} (f : A -> result B) (R : A -> B -> Prop) (xs : list A) :
  Forall (fun x => exists y, f x = Ok y /\ R x y) xs ->
  exists ys, mapM f xs = Ok ys /\ Forall2 R xs ys.
Proof.
  induction 1 as [|x xs [y [Hy HR]] _ [ys [Hys HF]]]; simpl.
  - exists []. split; [reflexivity | constructor].
  - exists (y :: ys). rewrite Hy, Hys. split; [reflexivity | now constructor].
Qed.

(** C5. For sorts in range, the ordering has one entry per sort, in order:
    the column name of the header at position [abs s - 1], as it is when
    [s > 0] and with a leading minus when [s < 0]; no sorts, no ordering. *)
Theorem get_order_by_resolves (self : SortForm) (d : list Z) :
  NoDup (map name (HEADERS self)) ->
  headers self = HeaderSet_init (HEADERS self) ->
  cleaned_data self = Some (Some d) ->
  Forall (fun s => 1 <= Z.abs s <= Z.of_nat (List.length (HEADERS self))) d ->
  exists order,
    get_order_by self = Ok order /\
    Forall2 (fun s entry =>
               exists h, nth_error (HEADERS self) (Z.to_nat (Z.abs s - 1)) = Some h /\
                         (0 < s -> entry = column_name h) /\
                         (s < 0 -> entry = "-" ++ column_name h))
            d order /\
    (d = [] -> order = []).
Proof.
  intros Hnd Hset Hdata Hrange. unfold get_order_by. rewrite Hdata. cbn [get_sorts].
  match goal with |- context [mapM ?f d] => set (entry_of := f) end.
  destruct (mapM_Forall2 entry_of
              (fun s entry =>
                 exists h, nth_error (HEADERS self) (Z.to_nat (Z.abs s - 1)) = Some h /\
                           (0 < s -> entry = column_name h) /\
                           (s < 0 -> entry = "-" ++ column_name h)) d)
    as [order [Horder HF]].
  - eapply Forall_impl; [|exact Hrange]. intros s Hs. cbv beta in Hs.
    unfold entry_of, HeaderSet_getitem.
    rewrite Hset, (HeaderSet_values _ Hnd).
    destruct (getitem_in_range (HEADERS self) (Z.abs s - 1)) as [h [Hget Hnth]]; [lia|].
    rewrite Hget. cbn [bind BoundHeader_init bh_column_name].
    eexists. split; [reflexivity|]. exists h. split; [exact Hnth|].
    destruct (Z.ltb_spec s 0); split; intros; (reflexivity || lia).
  - exists order. split; [exact Horder|]. split; [exact HF|].
    intros ->. now inversion HF.
Qed.

Lemma get_order_by_resolves_witness :
  exists order,
    get_order_by (two_column_form (Some (Some [2; -1]))) = Ok order /\
    Forall2 (fun s entry =>
               exists h, nth_error [title_header; date_header] (Z.to_nat (Z.abs s - 1)) = Some h /\
                         (0 < s -> entry = column_name h) /\
                         (s < 0 -> entry = "-" ++ column_name h))
            [2; -1] order /\
    ([2; -1] = [] -> order = []).
Proof.
  apply (get_order_by_resolves (two_column_form (Some (Some [2; -1]))) [2; -1]).
  - simpl. repeat constructor; simpl; intuition discriminate.
  - reflexivity.
  - reflexivity.
  - repeat constructor; simpl; lia.
Defined.

(** ** The sort codec *)

Section StripFacts.
Variable p : ascii -> bool.

Lemma lstrip_head (c : ascii) (r : string) :
  p c = false -> Py.lstrip p (String c r) = String c r.
Proof. intros H. simpl. now rewrite H. Qed.

Lemma rstrip_fixed (s : string) :
  Py.all_chars (fun c => negb (p c)) s = true -> Py.rstrip p s = s.
Proof.
  induction s as [|c r IH]; simpl; [reflexivity|].
  intros H. apply andb_true_iff in H. destruct H as [Hc Hr].
  rewrite (IH Hr). apply negb_true_iff in Hc. rewrite Hc. now destruct r.
Qed.

Lemma rstrip_cons (c : ascii) (r : string) :
  Py.rstrip p r = r -> Py.truthy r = true -> Py.rstrip p (String c r) = String c r.
Proof. intros Hr Hne. simpl. rewrite Hr. now destruct r. Qed.

Lemma strip_fixed (s : string) :
  Py.all_chars (fun c => negb (p c)) s = true -> Py.strip_chars p s = s.
Proof.
  intros H. unfold Py.strip_chars.
  assert (Hl : Py.lstrip p s = s).
  { destruct s as [|c r]; [reflexivity|]. apply lstrip_head.
    simpl in H. apply andb_true_iff in H. now apply negb_true_iff. }
  rewrite Hl. now apply rstrip_fixed.
Qed.
End StripFacts.

Lemma all_chars_impl (p q : ascii -> bool) (s : string) :
  (forall c, p c = true -> q c = true) ->
  Py.all_chars p s = true -> Py.all_chars q s = true.
Proof.
  intros Hpq. induction s as [|c r IH]; simpl; [reflexivity|].
  rewrite !andb_true_iff. intros [Hc Hr]. auto.
Qed.

Lemma digit_char_plain (c : ascii) :
  Py.is_digit_char c = true ->
  Ascii.eqb "-" c = false /\ Py.is_space_char c = false /\
  Ascii.eqb c "." = false /\ Ascii.eqb c "+" = false /\ Ascii.eqb c "-" = false.
Proof.
  destruct c as [[|] [|] [|] [|] [|] [|] [|] [|]]; simpl; intros H;
    try discriminate H; repeat split.
Qed.

Lemma uint_digits (u : Decimal.uint) :
  Py.all_chars Py.is_digit_char (NilEmpty.string_of_uint u) = true.
Proof.
  induction u; simpl; auto.
Qed.

Lemma uint_nonempty (u : Decimal.uint) :
  u <> Decimal.Nil -> Py.truthy (NilEmpty.string_of_uint u) = true.
Proof.
  destruct u; simpl; congruence.
Qed.

(** The shape of [str(n)]: digits, after a minus sign when [n] is negative. *)
Lemma str_shape (n : Z) :
  exists ds, Py.isdigit ds = true /\
             (Py.str n = ds \/ Py.str n = String "-" ds).
Proof.
  unfold Py.str, Py.isdigit. destruct n as [|q|q]; simpl.
  - exists "0". auto.
  - exists (NilEmpty.string_of_uint (Pos.to_uint q)).
    pose proof (Unsigned.to_uint_nonnil q) as Hnn.
    rewrite uint_digits, uint_nonempty by exact Hnn. split; [reflexivity|].
    left. unfold NilZero.string_of_uint. now destruct (Pos.to_uint q).
  - exists (NilEmpty.string_of_uint (Pos.to_uint q)).
    pose proof (Unsigned.to_uint_nonnil q) as Hnn.
    rewrite uint_digits, uint_nonempty by exact Hnn. split; [reflexivity|].
    right. unfold NilZero.string_of_uint. now destruct (Pos.to_uint q).
Qed.

Lemma isdigit_chars (ds : string) (q : ascii -> bool) :
  Py.isdigit ds = true ->
  (forall c, Py.is_digit_char c = true -> q c = true) ->
  Py.truthy ds = true /\ Py.all_chars q ds = true.
Proof.
  unfold Py.isdigit. rewrite andb_true_iff. intros [Hne Hall] Hq.
  split; [exact Hne | now apply (all_chars_impl Py.is_digit_char)].
Qed.

Lemma str_truthy (n : Z) : Py.truthy (Py.str n) = true.
Proof.
  destruct (str_shape n) as [ds [Hds [-> | ->]]]; [|reflexivity].
  unfold Py.isdigit in Hds. now apply andb_true_iff in Hds.
Qed.

Lemma str_no_dot (n : Z) :
  Py.all_chars (fun c => negb (Ascii.eqb c ".")) (Py.str n) = true.
Proof.
  destruct (str_shape n) as [ds [Hds Hshape]].
  assert (Hall : Py.all_chars (fun c => negb (Ascii.eqb c ".")) ds = true).
  { apply (isdigit_chars ds); [exact Hds|].
    intros c Hc. apply digit_char_plain in Hc. apply negb_true_iff. tauto. }
  destruct Hshape as [-> | ->]; simpl; auto.
Qed.

(** [str(n).strip('-').isdigit()] holds for every integer. *)
Lemma str_passes_digit_check (n : Z) :
  Py.isdigit (Py.strip_minus (Py.str n)) = true.
Proof.
  destruct (str_shape n) as [ds [Hds Hshape]].
  assert (Hfix : Py.strip_minus ds = ds).
  { apply strip_fixed. apply (isdigit_chars ds); [exact Hds|].
    intros c Hc. apply digit_char_plain in Hc. apply negb_true_iff. tauto. }
  destruct Hshape as [-> | ->]; [now rewrite Hfix|].
  unfold Py.strip_minus, Py.strip_chars in *. simpl. exact (eq_trans (f_equal _ Hfix) Hds).
Qed.

(** [int(str(n)) == n]. *)
Lemma int_str (n : Z) : Py.int (Py.str n) = Ok n.
Proof.
  assert (Hstrip : Py.strip (Py.str n) = Py.str n).
  { destruct (str_shape n) as [ds [Hds Hshape]].
    destruct (isdigit_chars ds (fun c => negb (Py.is_space_char c)) Hds) as [Hne Hall].
    { intros c Hc. apply digit_char_plain in Hc. apply negb_true_iff. tauto. }
    destruct Hshape as [-> | ->]; [now apply strip_fixed|].
    unfold Py.strip, Py.strip_chars. rewrite lstrip_head by reflexivity.
    apply rstrip_cons; [now apply rstrip_fixed | exact Hne]. }
  assert (Hhead : exists c r, Py.str n = String c r /\ Ascii.eqb c "+" = false).
  { destruct (str_shape n) as [ds [Hds [-> | ->]]]; [|now exists "-"%char, ds].
    unfold Py.isdigit in Hds. apply andb_true_iff in Hds. destruct Hds as [Hne Hall].
    destruct ds as [|c r]; [discriminate|]. exists c, r. split; [reflexivity|].
    simpl in Hall. apply andb_true_iff in Hall. destruct Hall as [Hc _].
    apply digit_char_plain in Hc. tauto. }
  unfold Py.int. rewrite Hstrip. destruct Hhead as [c [r [Hcr Hplus]]].
  rewrite Hcr, Hplus, <- Hcr. unfold Py.str.
  rewrite NilZero.isi.
  - now rewrite DecimalZ.of_to.
  - destruct n; simpl; try discriminate. intros [= H].
    now apply (Unsigned.to_uint_nonnil p).
  - destruct n; simpl; try discriminate. intros [= H].
    now apply (Unsigned.to_uint_nonnil p).
Qed.

Section SplitJoin.
Variable sep : ascii.

Let plain (s : string) : Prop :=
  Py.all_chars (fun c => negb (Ascii.eqb c sep)) s = true.

Lemma split_plain (s : string) : plain s -> Py.split sep s = [s].
Proof.
  unfold plain. induction s as [|c r IH]; simpl; [reflexivity|].
  rewrite andb_true_iff. intros [Hc Hr]. apply negb_true_iff in Hc.
  now rewrite Hc, (IH Hr).
Qed.

Lemma split_append (s rest : string) :
  plain s -> Py.split sep (s ++ String sep rest) = s :: Py.split sep rest.
Proof.
  unfold plain. induction s as [|c r IH]; simpl.
  - intros _. now rewrite Ascii.eqb_refl.
  - rewrite andb_true_iff. intros [Hc Hr]. apply negb_true_iff in Hc.
    now rewrite Hc, (IH Hr).
Qed.

(** Splitting a joined list of pieces that are free of the separator
    gives the pieces back. *)
Lemma split_join (x : string) (xs : list string) :
  Forall plain (x :: xs) ->
  Py.split sep (Py.join (String sep EmptyString) (x :: xs)) = x :: xs.
Proof.
  revert x. induction xs as [|y ys IH]; intros x Hall.
  - simpl. apply split_plain. now inversion Hall.
  - inversion Hall as [|? ? Hx Hrest]; subst.
    change (Py.join (String sep EmptyString) (x :: y :: ys))
      with (x ++ String sep (Py.join (String sep EmptyString) (y :: ys))).
    rewrite split_append by exact Hx. now rewrite IH.
Qed.
End SplitJoin.

Lemma filter_truthy_strs (d : list Z) :
  filter Py.truthy (map Py.str d) = map Py.str d.
Proof.
  induction d as [|n d IH]; simpl; [reflexivity|].
  now rewrite str_truthy, IH.
Qed.

Lemma mapM_int_strs (d : list Z) : mapM Py.int (map Py.str d) = Ok d.
Proof.
  induction d as [|n d IH]; simpl; [reflexivity|].
  now rewrite int_str, IH.
Qed.

Lemma all_sortable_ok (hs : list Header) (d : list Z) :
  Forall (fun s => 1 <= Z.abs s <= Z.of_nat (List.length hs)) d ->
  Forall (fun s => exists h, nth_error hs (Z.to_nat (Z.abs s - 1)) = Some h /\
                             is_sortable h = true) d ->
  all_sortable hs d = Ok true.
Proof.
  induction d as [|s d IH]; simpl; intros Hrange Hsort; [reflexivity|].
  inversion Hrange as [|? ? Hs Hrange']; subst.
  inversion Hsort as [|? ? [h [Hnth Hok]] Hsort']; subst.
  destruct (getitem_in_range hs (Z.abs s - 1)) as [h' [Hget Hnth']]; [lia|].
  rewrite Hget. cbn [bind]. assert (h' = h) by congruence. subst h'.
  rewrite Hok. auto.
Qed.

(** Decoding the text of any list of integers that are in range and name
    sortable headers gives the list back. *)
Lemma clean_sorts_encode (self : SortForm) (d : list Z) :
  Forall (fun s => 1 <= Z.abs s <= Z.of_nat (List.length (HEADERS self))) d ->
  Forall (fun s => exists h, nth_error (HEADERS self) (Z.to_nat (Z.abs s - 1)) = Some h /\
                             is_sortable h = true) d ->
  clean_sorts self (encode_sorts d) = Ok d.
Proof.
  intros Hrange Hsort. unfold clean_sorts, encode_sorts.
  destruct d as [|n d]; [reflexivity|].
  rewrite map_cons, split_join.
  2:{ rewrite <- map_cons. apply Forall_forall. intros s Hs.
      apply in_map_iff in Hs. destruct Hs as [m [<- _]]. apply str_no_dot. }
  rewrite <- map_cons, filter_truthy_strs. rewrite map_cons at 1.
  replace (forallb (fun sort => Py.isdigit (Py.strip_minus sort)) (map Py.str (n :: d)))
    with true.
  2:{ symmetry. apply forallb_forall. intros s Hs.
      apply in_map_iff in Hs. destruct Hs as [m [<- _]]. apply str_passes_digit_check. }
  cbn [negb]. rewrite mapM_int_strs. cbn [bind].
  replace (existsb (fun sort => Z.abs sort >? Z.of_nat (List.length (HEADERS self))) (n :: d))
    with false.
  2:{ symmetry. apply not_true_is_false. intros Hex. apply existsb_exists in Hex.
      destruct Hex as [s [Hin Hgt]]. rewrite Forall_forall in Hrange.
      specialize (Hrange s Hin). apply Z.gtb_lt in Hgt. lia. }
  rewrite (all_sortable_ok _ _ Hrange Hsort). reflexivity.
Qed.

(** C2. A list of non-zero integers of pairwise distinct magnitudes, each in
    range and naming a sortable header, survives encoding with [str] and
    ['.'.join] followed by [clean_sorts]. *)
Theorem clean_sorts_round_trip (self : SortForm) (d : list Z) :
  Forall (fun s => s <> 0) d ->
  NoDup (map Z.abs d) ->
  Forall (fun s => 1 <= Z.abs s <= Z.of_nat (List.length (HEADERS self))) d ->
  Forall (fun s => exists h, nth_error (HEADERS self) (Z.to_nat (Z.abs s - 1)) = Some h /\
                             is_sortable h = true) d ->
  clean_sorts self (encode_sorts d) = Ok d.
Proof.
  intros _ _. apply clean_sorts_encode.
Qed.

Lemma clean_sorts_round_trip_witness :
  encode_sorts [2; -1] = "2.-1" /\
  clean_sorts (two_column_form None) (encode_sorts [2; -1]) = Ok [2; -1].
Proof.
  split; [reflexivity|].
  apply (clean_sorts_round_trip (two_column_form None) [2; -1]).
  - repeat constructor; lia.
  - simpl. repeat constructor; simpl; intuition lia.
  - repeat constructor; simpl; lia.
  - repeat constructor; simpl; eexists; (split; [reflexivity | reflexivity]).
Defined.

(** C3. The range check misses zero: the text [0] passes it, reads the last
    header through the index [-1] and is returned as a valid list of sorts,
    which then orders by that last column. *)
Theorem clean_sorts_accepts_zero :
  clean_sorts (two_column_form None) "0" = Ok [0] /\
  _clean_fields (two_column_form None) "0" = Ok (two_column_form (Some (Some [0]))) /\
  get_order_by (two_column_form (Some (Some [0]))) = Ok ["created"].
Proof.
  repeat split.
Qed.

(** C4. A segment with minus signs that [strip('-')] removes but [int]
    rejects passes the digit check, and [int] raises [ValueError], which is
    no validation error and escapes the cleaning of the form. *)
Theorem clean_sorts_value_error :
  clean_sorts (two_column_form None) "--1" = Raise ValueError /\
  clean_sorts (two_column_form None) "1-" = Raise ValueError /\
  _clean_fields (two_column_form None) "2.--1" = Raise ValueError.
Proof.
  repeat split.
Qed.

(** ** Search *)

Section SearchFacts.
Variable Row : Type.
Variable lookup_holds : string -> string -> Row -> bool.

Lemma reduce_or_holds (a : Q) (rest : list Q) (row : Row) :
  Q_holds Row lookup_holds (Py.reduce Q_or a rest) row
  = Q_holds Row lookup_holds a row
    || existsb (fun q => Q_holds Row lookup_holds q row) rest.
Proof.
  unfold Py.reduce. revert a. induction rest as [|b rest IH]; intros a; simpl.
  - now rewrite orb_false_r.
  - rewrite IH. simpl. now rewrite orb_assoc.
Qed.

Lemma existsb_map {A B : Type} (f : A -> B) (p : B -> bool) (xs : list A) :
  existsb p (map f xs) = existsb (fun x => p (f x)) xs.
Proof.
  induction xs as [|x xs IH]; simpl; [reflexivity | now rewrite IH].
Qed.
End SearchFacts.

Lemma truthy_empty (s : string) : Py.truthy s = false <-> s = "".
Proof.
  destruct s; simpl; split; congruence.
Qed.

(** C7. With at least one search field: a term that is empty once stripped
    leaves the base queryset as it is; any other term filters the base
    queryset by a predicate that holds on a row iff the contains lookup
    ([__contains] when case sensitive, [__icontains] otherwise) of the
    stripped term holds for some declared field, and that is the lookup
    itself when exactly one field is declared. *)
Theorem search_get_queryset_filters
    (Row : Type) (lookup_holds : string -> string -> Row -> bool)
    (self : SearchForm) (q : string) :
  SEARCH_FIELDS self <> [] ->
  cleaned_q self = Some q ->
  let suffix := if CASE_SENSITIVE self then "__contains" else "__icontains" in
  (Py.strip q = "" -> SearchForm_get_queryset self = search_base_queryset self) /\
  (Py.strip q <> "" ->
   exists predicate,
     SearchForm_get_queryset self = qs_filter (search_base_queryset self) predicate /\
     (forall row,
         Q_holds Row lookup_holds predicate row
         = existsb (fun field => lookup_holds (field ++ suffix) (Py.strip q) row)
                   (SEARCH_FIELDS self)) /\
     (forall field,
         SEARCH_FIELDS self = [field] -> predicate = Q_kw (field ++ suffix) (Py.strip q))).
Proof.
  intros Hfields Hq suffix. unfold SearchForm_get_queryset. rewrite Hq.
  assert (Hleaf : forall field,
            (if CASE_SENSITIVE self then Q_kw (field ++ "__contains") (Py.strip q)
             else Q_kw (field ++ "__icontains") (Py.strip q))
            = Q_kw (field ++ suffix) (Py.strip q)).
  { intros field. unfold suffix. now destruct (CASE_SENSITIVE self). }
  rewrite (map_ext _ _ Hleaf). split.
  - intros ->. reflexivity.
  - intros Hterm. destruct (Py.truthy (Py.strip q)) eqn:Et.
    2:{ apply truthy_empty in Et. contradiction. }
    destruct (SEARCH_FIELDS self) as [|f1 [|f2 fs]]; [contradiction| |].
    + eexists. split; [reflexivity|]. split.
      * intros row. simpl. now rewrite orb_false_r.
      * now intros field [= <-].
    + exists (Py.reduce Q_or (Q_kw (f1 ++ suffix) (Py.strip q))
                (map (fun field => Q_kw (field ++ suffix) (Py.strip q)) (f2 :: fs))).
      split; [reflexivity|]. split; [|discriminate].
      intros row. rewrite reduce_or_holds, existsb_map. reflexivity.
Qed.

Lemma search_get_queryset_filters_witness :
  exists predicate,
    SearchForm_get_queryset
      {| SEARCH_FIELDS := ["name"; "email"]; CASE_SENSITIVE := false;
         search_base_queryset := books; cleaned_q := Some " abc " |}
    = qs_filter books predicate /\
    predicate = Q_or (Q_kw "name__icontains" "abc") (Q_kw "email__icontains" "abc").
Proof.
  destruct (search_get_queryset_filters unit (fun _ _ _ => true)
              {| SEARCH_FIELDS := ["name"; "email"]; CASE_SENSITIVE := false;
                 search_base_queryset := books; cleaned_q := Some " abc " |}
              " abc " ltac:(discriminate) eq_refl) as [_ Hfilter].
  destruct (Hfilter ltac:(discriminate)) as [predicate [Hqs _]].
  exists predicate. split; [exact Hqs|].
  simpl in Hqs. now injection Hqs as <-.
Defined.

(** C8, as stated, fails: a search form given an empty list of fields is
    constructed, whether the list comes from the call or from the class, and
    its search then filters nothing. *)
Lemma search_form_accepts_no_fields :
  let built := {| SEARCH_FIELDS := []; CASE_SENSITIVE := false;
                  search_base_queryset := books; cleaned_q := None |} in
  SearchForm_init None false None (Some (Some [])) (Some books) = Ok built /\
  SearchForm_init (Some []) false None None (Some books) = Ok built /\
  SearchForm_get_queryset
    {| SEARCH_FIELDS := []; CASE_SENSITIVE := false;
       search_base_queryset := books; cleaned_q := Some "abc" |} = books.
Proof.
  repeat split.
Qed.

(** C8, as amended. Once the base queryset is there, construction raises
    [ImproperlyConfigured] exactly when the list of fields is [None], that
    is unset; any list, the empty one included, gives a form that holds it;
    and a form that holds the empty list, as the one so built does whatever
    term is cleaned into it, searches without filtering. *)
Theorem search_form_requires_fields
    (cls_fields : option (list string)) (case_sensitive : bool)
    (model : option string) (search_fields : option (option (list string)))
    (queryset : option QuerySet) (base : QuerySet) :
  BaseChangeListForm_init model queryset = Ok base ->
  let fields := match search_fields with Some given => given | None => cls_fields end in
  (SearchForm_init cls_fields case_sensitive model search_fields queryset
   = Raise ImproperlyConfigured <-> fields = None) /\
  (forall fs, fields = Some fs ->
     exists built,
       SearchForm_init cls_fields case_sensitive model search_fields queryset = Ok built /\
       SEARCH_FIELDS built = fs /\ search_base_queryset built = base /\
       CASE_SENSITIVE built = case_sensitive /\
       (fs = [] ->
        forall term,
          SearchForm_get_queryset
            {| SEARCH_FIELDS := SEARCH_FIELDS built;
               CASE_SENSITIVE := CASE_SENSITIVE built;
               search_base_queryset := search_base_queryset built;
               cleaned_q := term |}
          = base)).
Proof.
  intros Hbase fields. unfold SearchForm_init. rewrite Hbase. cbn [bind].
  fold fields. destruct fields as [fs|].
  - split; [split; discriminate|]. intros fs' [= <-].
    eexists. split; [reflexivity|]. cbn. repeat split.
    intros -> term. unfold SearchForm_get_queryset. cbn.
    now destruct (Py.truthy _).
  - split; [split; reflexivity|]. discriminate.
Qed.

Lemma search_form_requires_fields_witness :
  SearchForm_init None false (Some "Book") None None = Raise ImproperlyConfigured /\
  exists built,
    SearchForm_init None true None (Some (Some [])) (Some books) = Ok built /\
    SearchForm_get_queryset
      {| SEARCH_FIELDS := SEARCH_FIELDS built; CASE_SENSITIVE := CASE_SENSITIVE built;
         search_base_queryset := search_base_queryset built;
         cleaned_q := Some "abc" |}
    = books.
Proof.
  split.
  - exact (proj2 (proj1 (search_form_requires_fields None false (Some "Book") None None
                           (objects_all "Book") eq_refl))
                 eq_refl).
  - destruct (proj2 (search_form_requires_fields None true None (Some (Some []))
                       (Some books) books eq_refl) [] eq_refl)
      as [built [Hbuilt [_ [_ [_ Hsearch]]]]].
    exists built. split; [exact Hbuilt | exact (Hsearch eq_refl (Some "abc"))].
Defined.

(** * Further properties of the module *)

(** ** Indexing *)

Lemma getitem_wraps_in_range {A : Type} (xs : list A) (i : Z) :
  - Z.of_nat (List.length xs) <= i < Z.of_nat (List.length xs) ->
  exists x,
    Py.getitem xs i = Ok x /\
    nth_error xs (Z.to_nat (i mod Z.of_nat (List.length xs))) = Some x.
Proof.
  intros Hi. set (n := Z.of_nat (List.length xs)) in *.
  destruct (Z.ltb_spec i 0) as [Hneg|Hpos].
  - destruct (getitem_in_range xs (i + n)) as [x [Hget Hnth]]; [fold n; lia|].
    exists x. split.
    + unfold Py.getitem. fold n. cbv zeta.
      rewrite (proj2 (Z.ltb_lt i 0) Hneg).
      rewrite (proj2 (Z.ltb_ge (i + n) 0)) by lia.
      rewrite (proj2 (Z.leb_gt n (i + n))) by lia.
      cbn [orb]. now rewrite Hnth.
    + replace (i mod n) with (i + n); [exact Hnth|].
      apply Z.mod_unique with (q := -1); lia.
  - destruct (getitem_in_range xs i) as [x [Hget Hnth]]; [fold n; lia|].
    exists x. split; [exact Hget|]. rewrite Z.mod_small by lia. exact Hnth.
Qed.

Lemma getitem_out_of_range {A : Type} (xs : list A) (i : Z) :
  i < - Z.of_nat (List.length xs) \/ Z.of_nat (List.length xs) <= i ->
  Py.getitem xs i = Raise IndexError.
Proof.
  intros Hi. unfold Py.getitem. cbv zeta.
  set (n := Z.of_nat (List.length xs)) in *.
  destruct (Z.ltb_spec i 0) as [Hneg|Hpos].
  - rewrite (proj2 (Z.ltb_lt (i + n) 0)) by lia. reflexivity.
  - rewrite (proj2 (Z.ltb_ge i 0)) by lia.
    rewrite (proj2 (Z.leb_le n i)) by lia. reflexivity.
Qed.

Lemma getitem_raises {A : Type} (xs : list A) (i : Z) (e : exn) :
  Py.getitem xs i = Raise e ->
  e = IndexError /\
  (i < - Z.of_nat (List.length xs) \/ Z.of_nat (List.length xs) <= i).
Proof.
  intros H.
  destruct (Z_lt_ge_dec i (- Z.of_nat (List.length xs))) as [|Hlow].
  - rewrite getitem_out_of_range in H by lia. injection H as <-. split; [reflexivity | lia].
  - destruct (Z_lt_ge_dec i (Z.of_nat (List.length xs))) as [Hhigh|].
    + destruct (getitem_wraps_in_range xs i) as [x [Hget _]]; [lia | congruence].
    + rewrite getitem_out_of_range in H by lia. injection H as <-.
      split; [reflexivity | lia].
Qed.

(** ** What decoding accepts and how it fails *)

Lemma mapM_ok_Forall2 {A B : Type} (f : A -> result B) (xs : list A) (ys : list B) :
  mapM f xs = Ok ys -> Forall2 (fun x y => f x = Ok y) xs ys.
Proof.
  revert ys. induction xs as [|x xs IH]; simpl; intros ys H.
  - injection H as <-. constructor.
  - apply bind_ok in H. destruct H as [y [Hy H]].
    apply bind_ok in H. destruct H as [ys' [Hys H]]. injection H as <-.
    constructor; auto.
Qed.

Lemma mapM_raises {A B : Type} (f : A -> result B) (xs : list A) (e : exn) :
  mapM f xs = Raise e -> exists x, In x xs /\ f x = Raise e.
Proof.
  induction xs as [|x xs IH]; simpl; intros H; [discriminate|].
  destruct (f x) as [y|e'] eqn:Hx; simpl in H.
  - destruct (mapM f xs) as [ys|e'']; simpl in H; [discriminate|].
    destruct (IH H) as [x' [Hin Hx']]. exists x'. auto.
  - injection H as <-. exists x. auto.
Qed.

Lemma int_raises (s : string) (e : exn) : Py.int s = Raise e -> e = ValueError.
Proof.
  unfold Py.int. cbv zeta.
  destruct (Py.strip s) as [|c r]; [now intros [= <-]|].
  destruct (Ascii.eqb c "+").
  - destruct (option_map Decimal.Pos (NilZero.uint_of_string r)); [discriminate|].
    now intros [= <-].
  - destruct (NilZero.int_of_string (String c r)); [discriminate|]. now intros [= <-].
Qed.

Lemma bounded_iff (n : Z) (d : list Z) :
  existsb (fun s => Z.abs s >? n) d = false <-> Forall (fun s => Z.abs s <= n) d.
Proof.
  induction d as [|s d IH]; simpl.
  - split; [constructor | reflexivity].
  - rewrite orb_false_iff, IH. split.
    + intros [Hs Hd]. constructor; [|exact Hd].
      destruct (Z.gtb_spec (Z.abs s) n); [discriminate | lia].
    + intros H. inversion H as [|? ? Hs Hd]; subst. split; [|exact Hd].
      destruct (Z.gtb_spec (Z.abs s) n); [lia | reflexivity].
Qed.

Lemma all_sortable_true_iff (hs : list Header) (d : list Z) :
  all_sortable hs d = Ok true <->
  Forall (fun s => exists h, Py.getitem hs (Z.abs s - 1) = Ok h /\ is_sortable h = true) d.
Proof.
  induction d as [|s d IH]; simpl.
  - split; [constructor | reflexivity].
  - split.
    + intros H. apply bind_ok in H. destruct H as [h [Hget H]].
      destruct (is_sortable h) eqn:Hs; [|discriminate].
      constructor; [now exists h | now apply IH].
    + intros H. inversion H as [|? ? [h [Hget Hs]] Hd]; subst.
      rewrite Hget. cbn [bind]. rewrite Hs. now apply IH.
Qed.

Lemma checks_iff (hs : list Header) (d : list Z) :
  Forall (passes_checks hs) d <->
  existsb (fun s => Z.abs s >? Z.of_nat (List.length hs)) d = false /\
  all_sortable hs d = Ok true.
Proof.
  rewrite bounded_iff, all_sortable_true_iff. unfold passes_checks.
  rewrite !Forall_forall. split.
  - intros H. split; intros s Hs; apply (H s Hs).
  - intros [H1 H2] s Hs. split; [apply (H1 s Hs) | apply (H2 s Hs)].
Qed.

(** The only exception the sortable check can raise is the [IndexError] of
    an empty registry. *)
Lemma all_sortable_raises (hs : list Header) (d : list Z) (e : exn) :
  Forall (fun s => Z.abs s <= Z.of_nat (List.length hs)) d ->
  all_sortable hs d = Raise e -> e = IndexError /\ hs = [].
Proof.
  induction d as [|s d IH]; simpl; intros Hb H; [discriminate|].
  inversion Hb as [|? ? Hs Hd]; subst.
  destruct (Py.getitem hs (Z.abs s - 1)) as [h|e'] eqn:Hget; simpl in H.
  - destruct (is_sortable h); [now apply IH | discriminate].
  - injection H as <-. apply getitem_raises in Hget. destruct Hget as [-> Hrange].
    split; [reflexivity|]. destruct hs; [reflexivity | simpl in *; lia].
Qed.

(** What [clean_sorts] does with the text of a non-empty list of integers. *)
Lemma clean_sorts_encoded (self : SortForm) (n : Z) (d : list Z) :
  clean_sorts self (encode_sorts (n :: d)) =
  if existsb (fun s => Z.abs s >? Z.of_nat (List.length (HEADERS self))) (n :: d)
  then Raise (ValidationError "Invalid sort parameter")
  else
    sortable <- all_sortable (HEADERS self) (n :: d) ;;
    if negb sortable then Raise (ValidationError "Invalid sort parameter")
    else Ok (n :: d).
Proof.
  unfold clean_sorts, encode_sorts.
  rewrite map_cons, split_join.
  2:{ rewrite <- map_cons. apply Forall_forall. intros s Hs.
      apply in_map_iff in Hs. destruct Hs as [m [<- _]]. apply str_no_dot. }
  rewrite <- map_cons, filter_truthy_strs. rewrite map_cons at 1.
  replace (forallb (fun sort => Py.isdigit (Py.strip_minus sort)) (map Py.str (n :: d)))
    with true.
  2:{ symmetry. apply forallb_forall. intros s Hs.
      apply in_map_iff in Hs. destruct Hs as [m [<- _]]. apply str_passes_digit_check. }
  cbn [negb]. rewrite mapM_int_strs. reflexivity.
Qed.

Lemma checks_encode (self : SortForm) (d : list Z) :
  Forall (passes_checks (HEADERS self)) d -> clean_sorts self (encode_sorts d) = Ok d.
Proof.
  intros H. destruct d as [|n d]; [reflexivity|].
  apply checks_iff in H. destruct H as [Hb Hs].
  rewrite clean_sorts_encoded, Hb, Hs. reflexivity.
Qed.

Lemma clean_sorts_ok_parts (self : SortForm) (raw : string) (d : list Z) :
  clean_sorts self raw = Ok d ->
  mapM Py.int (filter Py.truthy (Py.split "." raw)) = Ok d /\
  Forall (passes_checks (HEADERS self)) d.
Proof.
  unfold clean_sorts. cbv zeta.
  destruct (filter Py.truthy (Py.split "." raw)) as [|seg segs] eqn:Esegs.
  - intros [= <-]. split; [reflexivity | constructor].
  - destruct (forallb _ (seg :: segs)); cbn [negb]; [|discriminate].
    destruct (mapM Py.int (seg :: segs)) as [d'|e]; cbn [bind]; [|discriminate].
    destruct (existsb _ d') eqn:Hb; [discriminate|].
    destruct (all_sortable (HEADERS self) d') as [[|]|e] eqn:Hs; cbn [bind negb];
      try discriminate.
    intros [= <-]. split; [reflexivity|]. apply checks_iff. auto.
Qed.

(** X1. Whatever [clean_sorts] returns has one integer per non-empty segment
    of the text, the value [int] gives that segment, and every one of them
    passed the range check and reads a sortable header. *)
Theorem clean_sorts_sound (self : SortForm) (raw : string) (d : list Z) :
  clean_sorts self raw = Ok d ->
  Forall2 (fun segment s => Py.int segment = Ok s)
          (filter Py.truthy (Py.split "." raw)) d /\
  Forall (passes_checks (HEADERS self)) d.
Proof.
  intros H. apply clean_sorts_ok_parts in H. destruct H as [Hint Hchecks].
  split; [now apply mapM_ok_Forall2 | exact Hchecks].
Qed.

Lemma clean_sorts_sound_witness :
  Forall2 (fun segment s => Py.int segment = Ok s)
          (filter Py.truthy (Py.split "." "2..-1")) [2; -1] /\
  Forall (passes_checks [title_header; date_header]) [2; -1].
Proof.
  apply (clean_sorts_sound (two_column_form None) "2..-1" [2; -1]). reflexivity.
Defined.

(** X2. [clean_sorts] raises nothing but the validation error with the
    message [Invalid sort parameter], the [ValueError] of [int], and, on a
    form without headers only, [IndexError]. *)
Theorem clean_sorts_exceptions (self : SortForm) (raw : string) (e : exn) :
  clean_sorts self raw = Raise e ->
  e = ValidationError "Invalid sort parameter" \/
  e = ValueError \/
  (e = IndexError /\ HEADERS self = []).
Proof.
  unfold clean_sorts. cbv zeta.
  destruct (filter Py.truthy (Py.split "." raw)) as [|seg segs]; [discriminate|].
  destruct (forallb _ (seg :: segs)); cbn [negb]; [|intros [= <-]; now left].
  destruct (mapM Py.int (seg :: segs)) as [d|e'] eqn:Hint; cbn [bind].
  - destruct (existsb _ d) eqn:Hb; [intros [= <-]; now left|].
    apply bounded_iff in Hb.
    destruct (all_sortable (HEADERS self) d) as [[|]|e'] eqn:Hs; cbn [bind negb].
    + discriminate.
    + intros [= <-]. now left.
    + intros [= <-]. right. right. now apply (all_sortable_raises _ d).
  - intros [= <-]. apply mapM_raises in Hint. destruct Hint as [x [_ Hx]].
    right. left. now apply (int_raises x).
Qed.

Lemma clean_sorts_exceptions_witness :
  IndexError = ValidationError "Invalid sort parameter" \/
  IndexError = ValueError \/
  (IndexError = IndexError /\
   HEADERS {| HEADERS := []; prefix := None; sort_base_queryset := books;
              cleaned_data := None; headers := [] |} = []).
Proof.
  apply (clean_sorts_exceptions
           {| HEADERS := []; prefix := None; sort_base_queryset := books;
              cleaned_data := None; headers := [] |} "0" IndexError).
  reflexivity.
Defined.

(** X3. Decoding the text of a decoded list gives that list again: what one
    request accepted, the links built from it carry unchanged. *)
Theorem clean_sorts_reencode (self : SortForm) (raw : string) (d : list Z) :
  clean_sorts self raw = Ok d -> clean_sorts self (encode_sorts d) = Ok d.
Proof.
  intros H. apply clean_sorts_ok_parts in H. now apply checks_encode.
Qed.

Lemma clean_sorts_reencode_witness :
  encode_sorts [7; -1; 0] = "7.-1.0" /\
  clean_sorts (two_column_form None) "1..-002.0" = Ok [1; -2; 0] /\
  clean_sorts (two_column_form None) (encode_sorts [1; -2; 0]) = Ok [1; -2; 0].
Proof.
  split; [reflexivity|]. split; [reflexivity|].
  apply (clean_sorts_reencode (two_column_form None) "1..-002.0" [1; -2; 0]).
  reflexivity.
Defined.

Section CharFacts.
Variable c : ascii.

Let occurs (s : string) : Prop := In c (list_ascii_of_string s).

Lemma lstrip_keeps (p : ascii -> bool) (s : string) :
  p c = false -> occurs s -> occurs (Py.lstrip p s).
Proof.
  unfold occurs. intros Hc. induction s as [|a r IH]; simpl; [tauto|].
  intros [-> | Hin].
  - rewrite Hc. now left.
  - destruct (p a); [auto | now right].
Qed.

Lemma rstrip_keeps (p : ascii -> bool) (s : string) :
  p c = false -> occurs s -> occurs (Py.rstrip p s).
Proof.
  unfold occurs. intros Hc. induction s as [|a r IH]; simpl; [tauto|].
  intros [-> | Hin].
  - destruct (Py.rstrip p r); [rewrite Hc|]; now left.
  - specialize (IH Hin). destruct (Py.rstrip p r); [contradiction | now right].
Qed.

Lemma all_chars_fails (q : ascii -> bool) (s : string) :
  q c = false -> occurs s -> Py.all_chars q s = false.
Proof.
  unfold occurs. intros Hc. induction s as [|a r IH]; simpl; [tauto|].
  intros [-> | Hin].
  - now rewrite Hc.
  - rewrite (IH Hin). apply andb_false_r.
Qed.

Lemma split_keeps (sep : ascii) (s : string) :
  Ascii.eqb c sep = false -> occurs s ->
  exists segment, In segment (Py.split sep s) /\ occurs segment.
Proof.
  unfold occurs. intros Hc. induction s as [|a r IH]; simpl; [tauto|].
  intros [-> | Hin].
  - rewrite Hc. destruct (Py.split sep r) as [|w ws]; eexists; (split; [now left|]);
      now left.
  - destruct (IH Hin) as [segment [Hseg Hocc]].
    destruct (Ascii.eqb a sep).
    + exists segment. split; [now right | exact Hocc].
    + destruct (Py.split sep r) as [|w ws]; [contradiction|].
      destruct Hseg as [-> | Hseg].
      * exists (String a segment). split; [now left | now right].
      * exists segment. split; [now right | exact Hocc].
Qed.

Lemma occurs_truthy (s : string) : occurs s -> Py.truthy s = true.
Proof.
  unfold occurs. destruct s; simpl; tauto.
Qed.
End CharFacts.

(** X4. A text that holds a character which [isdigit] does not accept and
    which is neither the minus sign nor the separating dot is refused with
    the validation error; it never reaches [int]. *)
Theorem clean_sorts_refuses_other_characters (self : SortForm) (raw : string) (c : ascii) :
  In c (list_ascii_of_string raw) ->
  Py.is_digit_char c = false -> c <> "-"%char -> c <> "."%char ->
  clean_sorts self raw = Raise (ValidationError "Invalid sort parameter").
Proof.
  intros Hin Hdigit Hminus Hdot.
  destruct (split_keeps c "." raw) as [segment [Hseg Hocc]]; [|exact Hin|].
  { now apply Ascii.eqb_neq. }
  assert (Hkept : In segment (filter Py.truthy (Py.split "." raw))).
  { apply filter_In. split; [exact Hseg | now apply (occurs_truthy c)]. }
  assert (Hcheck : Py.isdigit (Py.strip_minus segment) = false).
  { unfold Py.isdigit. apply andb_false_iff. right.
    apply (all_chars_fails c); [exact Hdigit|].
    unfold Py.strip_minus, Py.strip_chars.
    assert (Hc : Ascii.eqb "-" c = false) by (apply Ascii.eqb_neq; congruence).
    apply rstrip_keeps; [exact Hc|]. now apply lstrip_keeps. }
  unfold clean_sorts. cbv zeta.
  destruct (filter Py.truthy (Py.split "." raw)) as [|seg segs] eqn:E; [contradiction|].
  replace (forallb (fun sort => Py.isdigit (Py.strip_minus sort)) (seg :: segs))
    with false; [reflexivity|].
  symmetry. apply not_true_is_false. intros Hall.
  rewrite forallb_forall in Hall. specialize (Hall segment Hkept). congruence.
Qed.

Lemma clean_sorts_refuses_other_characters_witness :
  clean_sorts (two_column_form None) "1.+2" = Raise (ValidationError "Invalid sort parameter").
Proof.
  apply (clean_sorts_refuses_other_characters (two_column_form None) "1.+2" "+"%char).
  - simpl. tauto.
  - reflexivity.
  - discriminate.
  - discriminate.
Defined.

(** ** Cleaning, then ordering *)

Lemma mapM_length {A B : Type} (f : A -> result B) (xs : list A) (ys : list B) :
  mapM f xs = Ok ys -> List.length ys = List.length xs.
Proof.
  intros H. apply mapM_ok_Forall2 in H. symmetry. now apply (Forall2_length H).
Qed.

Lemma get_order_by_checked (self : SortForm) (d : list Z) :
  NoDup (map name (HEADERS self)) ->
  headers self = HeaderSet_init (HEADERS self) ->
  cleaned_data self = Some (Some d) ->
  Forall (passes_checks (HEADERS self)) d ->
  exists order, get_order_by self = Ok order /\ List.length order = List.length d.
Proof.
  intros Hnd Hset Hdata Hchecks. unfold get_order_by. rewrite Hdata. cbn [get_sorts].
  match goal with |- context [mapM ?f d] => set (entry_of := f) end.
  destruct (mapM_Forall2 entry_of (fun _ _ => True) d) as [order [Horder _]].
  - eapply Forall_impl; [|exact Hchecks]. intros s [_ [h [Hget _]]].
    unfold entry_of, HeaderSet_getitem. rewrite Hset, (HeaderSet_values _ Hnd), Hget.
    cbn [bind]. eexists. split; [reflexivity | exact I].
  - exists order. split; [exact Horder | now apply (mapM_length entry_of)].
Qed.

(** X5. Once a form built by [SortForm.__init__] has cleaned its field,
    neither [get_order_by] nor [get_queryset] raises: the ordering has one
    entry per stored sort, and after a validation error the queryset is the
    base queryset, unordered. *)
Theorem order_after_cleaning (f g : SortForm) (raw : string) :
  NoDup (map name (HEADERS f)) ->
  headers f = HeaderSet_init (HEADERS f) ->
  _clean_fields f raw = Ok g ->
  exists data order qs,
    cleaned_data g = Some data /\
    get_order_by g = Ok order /\
    List.length order = List.length (get_sorts data) /\
    SortForm_get_queryset g = Ok qs /\
    (forall message, clean_sorts f raw = Raise (ValidationError message) ->
                     data = None /\ order = [] /\ qs = sort_base_queryset f).
Proof.
  intros Hnd Hset Hclean. unfold _clean_fields in Hclean.
  destruct (clean_sorts f raw) as [d|e] eqn:Hd.
  - injection Hclean as <-.
    apply clean_sorts_ok_parts in Hd. destruct Hd as [_ Hchecks].
    match goal with |- context [cleaned_data ?g] => set (cleaned := g) end.
    destruct (get_order_by_checked cleaned d Hnd Hset eq_refl Hchecks)
      as [order [Horder Hlen]].
    exists (Some d), order. unfold SortForm_get_queryset. rewrite Horder. cbn [bind].
    destruct order as [|entry order']; eexists; repeat split; try reflexivity;
      try exact Hlen; discriminate.
  - destruct e; try discriminate. injection Hclean as <-.
    exists None, [], (sort_base_queryset f). repeat split.
Qed.

Lemma order_after_cleaning_witness :
  exists data order qs,
    cleaned_data (two_column_form (Some (Some [2; -1]))) = Some data /\
    get_order_by (two_column_form (Some (Some [2; -1]))) = Ok order /\
    List.length order = List.length (get_sorts data) /\
    SortForm_get_queryset (two_column_form (Some (Some [2; -1]))) = Ok qs /\
    (forall message,
        clean_sorts (two_column_form None) "2.-1" = Raise (ValidationError message) ->
        data = None /\ order = [] /\ qs = sort_base_queryset (two_column_form None)).
Proof.
  apply (order_after_cleaning (two_column_form None)
           (two_column_form (Some (Some [2; -1]))) "2.-1").
  - simpl. repeat constructor; simpl; intuition discriminate.
  - reflexivity.
  - reflexivity.
Defined.

(** ** The links of a bound header *)

Lemma bound_sort_index (f : SortForm) (i : nat) (h : Header) :
  NoDup (map name (HEADERS f)) -> nth_error (HEADERS f) i = Some h ->
  _sort_index (BoundHeader_init f h) = Ok (Z.of_nat i + 1).
Proof.
  intros Hnd Hi. unfold _sort_index, _index. cbn [BoundHeader_init header form].
  now rewrite (index_of_header _ _ _ Hnd Hi).
Qed.

Lemma bound_sorts (f : SortForm) (h : Header) (d : list Z) :
  cleaned_data f = Some (Some d) -> sorts (BoundHeader_init f h) = d.
Proof.
  intros Hd. cbn [BoundHeader_init sorts]. now rewrite Hd.
Qed.

(** The header at position [i] is the one its own sort index reads. *)
Lemma own_index_reads (hs : list Header) (i : nat) (h : Header) :
  nth_error hs i = Some h ->
  Z.abs (Z.of_nat i + 1) <= Z.of_nat (List.length hs) /\
  Py.getitem hs (Z.abs (Z.of_nat i + 1) - 1) = Ok h.
Proof.
  intros Hi. assert (Hlt : (i < List.length hs)%nat) by (apply nth_error_Some; congruence).
  split; [lia|].
  destruct (getitem_in_range hs (Z.abs (Z.of_nat i + 1) - 1)) as [h' [Hget Hnth]]; [lia|].
  replace (Z.to_nat (Z.abs (Z.of_nat i + 1) - 1)) with i in Hnth by lia. congruence.
Qed.

(** The two ways [add_to_sorts] answers. *)
Lemma add_to_sorts_cases (self : BoundHeader) (k : Z) :
  _sort_index self = Ok k ->
  exists next,
    add_to_sorts self = Ok next /\
    ((exists first rest,
         sorts self = first :: rest /\ Z.abs first = k /\ next = - first :: rest) \/
     ((forall first rest, sorts self = first :: rest -> Z.abs first <> k) /\
      next = k :: filter (fun x => negb (Z.abs x =? k)) (sorts self))).
Proof.
  intros Hk. unfold add_to_sorts. rewrite Hk. cbn [bind app].
  destruct (sorts self) as [|first rest] eqn:E.
  - eexists. split; [reflexivity|]. right. split; [discriminate | reflexivity].
  - destruct (Z.eqb_spec (Z.abs first) k) as [Heq|Hne].
    + exists (- first :: rest). split.
      * apply f_equal. apply (f_equal (fun x => x :: rest)). lia.
      * left. now exists first, rest.
    + eexists. split; [reflexivity|]. right. split; [|reflexivity].
      now intros first' rest' [= <- <-].
Qed.

Lemma passes_checks_opp (hs : list Header) (s : Z) :
  passes_checks hs s -> passes_checks hs (- s).
Proof.
  unfold passes_checks. now rewrite Z.abs_opp.
Qed.

Lemma passes_checks_filter (hs : list Header) (p : Z -> bool) (d : list Z) :
  Forall (passes_checks hs) d -> Forall (passes_checks hs) (filter p d).
Proof.
  rewrite !Forall_forall. intros H s Hs. apply filter_In in Hs. now apply H.
Qed.

(** X6. The toggle link of a sortable header is accepted by the next
    request: the text it carries decodes to the very list [add_to_sorts]
    computed. *)
Theorem toggle_link_decodes (f : SortForm) (i : nat) (h : Header)
    (raw : string) (d : list Z) :
  NoDup (map name (HEADERS f)) ->
  nth_error (HEADERS f) i = Some h ->
  is_sortable h = true ->
  cleaned_data f = Some (Some d) ->
  clean_sorts f raw = Ok d ->
  let self := BoundHeader_init f h in
  exists next,
    add_to_sorts self = Ok next /\
    querystring self = Ok (param self, encode_sorts next) /\
    clean_sorts f (encode_sorts next) = Ok next.
Proof.
  intros Hnd Hi Hsortable Hdata Hraw self.
  apply clean_sorts_ok_parts in Hraw. destruct Hraw as [_ Hchecks].
  pose proof (bound_sort_index f i h Hnd Hi) as Hk. fold self in Hk.
  pose proof (bound_sorts f h d Hdata) as Hd. fold self in Hd.
  destruct (own_index_reads _ _ _ Hi) as [Hle Hget].
  destruct (add_to_sorts_cases self _ Hk) as [next [Hnext Hcase]].
  exists next. split; [exact Hnext|]. split.
  { unfold querystring. now rewrite Hnext. }
  apply checks_encode. rewrite Hd in Hcase.
  destruct Hcase as [[first [rest [-> [_ ->]]]] | [_ ->]].
  - inversion Hchecks; subst. constructor; [now apply passes_checks_opp | assumption].
  - constructor; [|now apply passes_checks_filter].
    split; [exact Hle | now exists h].
Qed.

Lemma toggle_link_decodes_witness :
  let self := BoundHeader_init (two_column_form (Some (Some [2; -1]))) title_header in
  exists next,
    add_to_sorts self = Ok next /\
    querystring self = Ok (param self, encode_sorts next) /\
    clean_sorts (two_column_form (Some (Some [2; -1]))) (encode_sorts next) = Ok next.
Proof.
  apply (toggle_link_decodes (two_column_form (Some (Some [2; -1]))) 0 title_header
           "2.-1" [2; -1]).
  - simpl. repeat constructor; simpl; intuition discriminate.
  - reflexivity.
  - reflexivity.
  - reflexivity.
  - reflexivity.
Defined.

(** X7. The remove link is accepted by the next request whether or not the
    header is sortable: its text decodes to the list it was built from. *)
Theorem remove_link_decodes (f : SortForm) (i : nat) (h : Header)
    (raw : string) (d : list Z) :
  NoDup (map name (HEADERS f)) ->
  nth_error (HEADERS f) i = Some h ->
  cleaned_data f = Some (Some d) ->
  clean_sorts f raw = Ok d ->
  let self := BoundHeader_init f h in
  exists others,
    remove_sorts self = Ok others /\
    remove_querystring self = Ok (param self, encode_sorts others) /\
    clean_sorts f (encode_sorts others) = Ok others.
Proof.
  intros Hnd Hi Hdata Hraw self.
  apply clean_sorts_ok_parts in Hraw. destruct Hraw as [_ Hchecks].
  pose proof (bound_sort_index f i h Hnd Hi) as Hk. fold self in Hk.
  pose proof (bound_sorts f h d Hdata) as Hd. fold self in Hd.
  destruct (add_to_sorts_cases self _ Hk) as [next [Hnext Hcase]].
  exists (tl next).
  assert (Hremove : remove_sorts self = Ok (tl next)).
  { unfold remove_sorts. now rewrite Hnext. }
  split; [exact Hremove|]. split.
  { unfold remove_querystring. now rewrite Hremove. }
  apply checks_encode. rewrite Hd in Hcase.
  destruct Hcase as [[first [rest [-> [_ ->]]]] | [_ ->]]; cbn [tl].
  - now inversion Hchecks.
  - now apply passes_checks_filter.
Qed.

Lemma remove_link_decodes_witness :
  let self := BoundHeader_init (three_column_form (Some (Some [2; -1]))) notes_header in
  exists others,
    remove_sorts self = Ok others /\
    remove_querystring self = Ok (param self, encode_sorts others) /\
    clean_sorts (three_column_form (Some (Some [2; -1]))) (encode_sorts others) = Ok others.
Proof.
  apply (remove_link_decodes (three_column_form (Some (Some [2; -1]))) 2 notes_header
           "2.-1" [2; -1]).
  - simpl. repeat constructor; simpl; intuition discriminate.
  - reflexivity.
  - reflexivity.
  - reflexivity.
Defined.

(** X8. The sort-by-this-column-alone link of a sortable header binds the
    parameter to [str] of the header's sort index, and the next request
    decodes that text to the single ascending sort. *)
Theorem singular_link_decodes (f : SortForm) (i : nat) (h : Header) :
  NoDup (map name (HEADERS f)) ->
  nth_error (HEADERS f) i = Some h ->
  is_sortable h = true ->
  let self := BoundHeader_init f h in
  singular_querystring self = Ok (param self, Py.str (Z.of_nat i + 1)) /\
  clean_sorts f (Py.str (Z.of_nat i + 1)) = Ok [Z.of_nat i + 1].
Proof.
  intros Hnd Hi Hsortable self.
  pose proof (bound_sort_index f i h Hnd Hi) as Hk. fold self in Hk.
  destruct (own_index_reads _ _ _ Hi) as [Hle Hget]. split.
  - unfold singular_querystring. now rewrite Hk.
  - change (Py.str (Z.of_nat i + 1)) with (encode_sorts [Z.of_nat i + 1]).
    apply checks_encode. constructor; [|constructor].
    split; [exact Hle | now exists h].
Qed.

Lemma singular_link_decodes_witness :
  singular_querystring (BoundHeader_init (two_column_form None) date_header)
    = Ok ("sorts", "2") /\
  clean_sorts (two_column_form None) "2" = Ok [2].
Proof.
  apply (singular_link_decodes (two_column_form None) 1 date_header).
  - simpl. repeat constructor; simpl; intuition discriminate.
  - reflexivity.
  - reflexivity.
Defined.

(** X9. The toggle link of a header that is not sortable is refused by the
    next request with the validation error. *)
Theorem toggle_link_of_unsortable_refused (f : SortForm) (i : nat) (h : Header)
    (raw : string) (d : list Z) :
  NoDup (map name (HEADERS f)) ->
  nth_error (HEADERS f) i = Some h ->
  is_sortable h = false ->
  cleaned_data f = Some (Some d) ->
  clean_sorts f raw = Ok d ->
  exists next,
    add_to_sorts (BoundHeader_init f h) = Ok next /\
    clean_sorts f (encode_sorts next) = Raise (ValidationError "Invalid sort parameter").
Proof.
  intros Hnd Hi Hunsortable Hdata Hraw.
  apply clean_sorts_ok_parts in Hraw. destruct Hraw as [_ Hchecks].
  pose proof (bound_sort_index f i h Hnd Hi) as Hk.
  pose proof (bound_sorts f h d Hdata) as Hd.
  destruct (own_index_reads _ _ _ Hi) as [Hle Hget].
  destruct (add_to_sorts_cases _ _ Hk) as [next [Hnext Hcase]].
  exists next. split; [exact Hnext|]. rewrite Hd in Hcase.
  destruct Hcase as [[first [rest [-> [Hfirst _]]]] | [_ ->]].
  - exfalso. inversion Hchecks as [|? ? [_ [h' [Hget' Hs']]] _]; subst.
    replace (Z.abs (Z.of_nat i + 1)) with (Z.abs first) in Hget by lia. congruence.
  - rewrite clean_sorts_encoded.
    replace (existsb _ (_ :: _)) with false.
    + cbn [all_sortable]. rewrite Hget. cbn [bind]. rewrite Hunsortable. reflexivity.
    + symmetry. apply bounded_iff. constructor; [exact Hle|].
      apply checks_iff in Hchecks. destruct Hchecks as [Hb _].
      apply bounded_iff in Hb. rewrite Forall_forall in *.
      intros s Hs. apply filter_In in Hs. now apply Hb.
Qed.

Lemma toggle_link_of_unsortable_refused_witness :
  exists next,
    add_to_sorts (BoundHeader_init (three_column_form (Some (Some [2; -1]))) notes_header)
      = Ok next /\
    clean_sorts (three_column_form (Some (Some [2; -1]))) (encode_sorts next)
      = Raise (ValidationError "Invalid sort parameter").
Proof.
  apply (toggle_link_of_unsortable_refused
           (three_column_form (Some (Some [2; -1]))) 2 notes_header "2.-1" [2; -1]).
  - simpl. repeat constructor; simpl; intuition discriminate.
  - reflexivity.
  - reflexivity.
  - reflexivity.
  - reflexivity.
Defined.

(** ** The state of the headers across a click *)

(** Every state property is a function of the sort index and the sorts. *)
Lemma state_values (self : BoundHeader) (k : Z) :
  _sort_index self = Ok k ->
  let active := contains k (map Z.abs (sorts self)) in
  let ascending := contains k (sorts self) in
  is_active self = Ok active /\
  is_ascending self = Ok (active && ascending) /\
  is_descending self = Ok (active && negb ascending) /\
  css_classes self =
    Ok (if active then if ascending then "active ascending" else "active descending"
        else "") /\
  (active = false -> priority self = Ok None).
Proof.
  intros Hk active ascending.
  unfold is_ascending, is_descending, css_classes, priority, is_active.
  rewrite Hk. cbn [bind]. fold active. fold ascending.
  destruct active; cbn [bind andb]; [|repeat split].
  destruct ascending; repeat split; discriminate.
Qed.

Lemma existsb_filter {A : Type} (q p : A -> bool) (xs : list A) :
  (forall x, q x = true -> p x = true) ->
  existsb q (filter p xs) = existsb q xs.
Proof.
  intros Hqp. induction xs as [|x xs IH]; simpl; [reflexivity|].
  destruct (p x) eqn:Hp; simpl; rewrite IH; [reflexivity|].
  destruct (q x) eqn:Hq; [|reflexivity]. apply Hqp in Hq. congruence.
Qed.

Lemma contains_magnitudes (k : Z) (d : list Z) :
  contains k (map Z.abs d) = existsb (fun x => Z.abs x =? k) d.
Proof.
  unfold contains. apply existsb_map.
Qed.

(** Dropping the sorts of magnitude [k] hides nothing from another index. *)
Lemma filter_keeps_other (k k' : Z) (d : list Z) :
  0 < k' -> k' <> k ->
  let kept := filter (fun x => negb (Z.abs x =? k)) d in
  contains k' kept = contains k' d /\
  contains k' (map Z.abs kept) = contains k' (map Z.abs d).
Proof.
  intros Hpos Hne kept. rewrite !contains_magnitudes. unfold contains, kept. split.
  - apply existsb_filter. intros x Hx. apply Z.eqb_eq in Hx.
    apply negb_true_iff, Z.eqb_neq. lia.
  - apply existsb_filter. intros x Hx. apply Z.eqb_eq in Hx.
    apply negb_true_iff, Z.eqb_neq. lia.
Qed.

(** Neither does adding or dropping one sort of magnitude [k] at the front. *)
Lemma head_hidden_from_other (k k' first : Z) (rest : list Z) :
  0 < k' -> k' <> k -> Z.abs first = k ->
  contains k' (first :: rest) = contains k' rest /\
  contains k' (map Z.abs (first :: rest)) = contains k' (map Z.abs rest).
Proof.
  intros Hpos Hne Hfirst. unfold contains. cbn [map existsb]. split.
  - destruct (Z.eqb_spec first k'); [lia | reflexivity].
  - destruct (Z.eqb_spec (Z.abs first) k'); [lia | reflexivity].
Qed.

Lemma other_state_equal (x y : BoundHeader) (k : Z) :
  _sort_index x = Ok k -> _sort_index y = Ok k ->
  contains k (sorts x) = contains k (sorts y) ->
  contains k (map Z.abs (sorts x)) = contains k (map Z.abs (sorts y)) ->
  is_active x = is_active y /\ is_ascending x = is_ascending y /\
  is_descending x = is_descending y /\ css_classes x = css_classes y.
Proof.
  intros Hx Hy Hasc Hact.
  destruct (state_values x k Hx) as [Ax [Bx [Cx [Dx _]]]].
  destruct (state_values y k Hy) as [Ay [By [Cy [Dy _]]]].
  rewrite Ax, Bx, Cx, Dx, Ay, By, Cy, Dy, Hasc, Hact. repeat split.
Qed.

(** X10. A click on one header changes nothing for a header of another
    index: it is active, ascending or descending after the click exactly as
    before, with the same css classes. *)
Theorem click_keeps_other_headers (self other other' : BoundHeader) (k k' : Z) :
  _sort_index self = Ok k ->
  _sort_index other = Ok k' ->
  _sort_index other' = Ok k' ->
  k' <> k ->
  sorts other = sorts self ->
  add_to_sorts self = Ok (sorts other') ->
  is_active other' = is_active other /\
  is_ascending other' = is_ascending other /\
  is_descending other' = is_descending other /\
  css_classes other' = css_classes other.
Proof.
  intros Hk Hother Hother' Hne Hsame Hclick.
  pose proof (sort_index_positive _ _ Hother) as Hpos.
  pose proof (sort_index_positive _ _ Hk) as Hkpos.
  destruct (add_to_sorts_cases self k Hk) as [next [Hnext Hcase]].
  assert (next = sorts other') by congruence. subst next.
  apply (other_state_equal other' other k' Hother' Hother); rewrite Hsame.
  - destruct Hcase as [[first [rest [-> [Hfirst ->]]]] | [_ ->]].
    + rewrite (proj1 (head_hidden_from_other k k' first rest ltac:(lia) Hne Hfirst)).
      apply (head_hidden_from_other k k' (- first) rest); lia.
    + rewrite (proj1 (head_hidden_from_other k k' k _ ltac:(lia) Hne ltac:(lia))).
      apply (filter_keeps_other k k'); lia.
  - destruct Hcase as [[first [rest [-> [Hfirst ->]]]] | [_ ->]].
    + rewrite (proj2 (head_hidden_from_other k k' first rest ltac:(lia) Hne Hfirst)).
      apply (head_hidden_from_other k k' (- first) rest); lia.
    + rewrite (proj2 (head_hidden_from_other k k' k _ ltac:(lia) Hne ltac:(lia))).
      apply (filter_keeps_other k k'); lia.
Qed.

Lemma click_keeps_other_headers_witness :
  let before := BoundHeader_init (two_column_form (Some (Some [2; -1]))) title_header in
  let after := BoundHeader_init (two_column_form (Some (Some [-2; -1]))) title_header in
  is_active after = is_active before /\
  is_ascending after = is_ascending before /\
  is_descending after = is_descending before /\
  css_classes after = css_classes before.
Proof.
  apply (click_keeps_other_headers
           (BoundHeader_init (two_column_form (Some (Some [2; -1]))) date_header)
           (BoundHeader_init (two_column_form (Some (Some [2; -1]))) title_header)
           (BoundHeader_init (two_column_form (Some (Some [-2; -1]))) title_header)
           2 1); (reflexivity || lia).
Defined.

(** X11. Following the remove link of one header changes nothing for a
    header of another index either. *)
Theorem remove_keeps_other_headers (self other other' : BoundHeader) (k k' : Z) :
  _sort_index self = Ok k ->
  _sort_index other = Ok k' ->
  _sort_index other' = Ok k' ->
  k' <> k ->
  sorts other = sorts self ->
  remove_sorts self = Ok (sorts other') ->
  is_active other' = is_active other /\
  is_ascending other' = is_ascending other /\
  is_descending other' = is_descending other /\
  css_classes other' = css_classes other.
Proof.
  intros Hk Hother Hother' Hne Hsame Hremove.
  pose proof (sort_index_positive _ _ Hother) as Hpos.
  destruct (add_to_sorts_cases self k Hk) as [next [Hnext Hcase]].
  unfold remove_sorts in Hremove. rewrite Hnext in Hremove. cbn [bind] in Hremove.
  injection Hremove as Hremove.
  apply (other_state_equal other' other k' Hother' Hother);
    rewrite Hsame, <- Hremove;
    destruct Hcase as [[first [rest [-> [Hfirst ->]]]] | [_ ->]]; cbn [tl].
  - symmetry. apply (head_hidden_from_other k k' first rest); (lia || assumption).
  - apply (filter_keeps_other k k'); lia.
  - symmetry. apply (head_hidden_from_other k k' first rest); (lia || assumption).
  - apply (filter_keeps_other k k'); lia.
Qed.

Lemma remove_keeps_other_headers_witness :
  let before := BoundHeader_init (two_column_form (Some (Some [2; -1]))) title_header in
  let after := BoundHeader_init (two_column_form (Some (Some [-1]))) title_header in
  is_active after = is_active before /\
  is_ascending after = is_ascending before /\
  is_descending after = is_descending before /\
  css_classes after = css_classes before.
Proof.
  apply (remove_keeps_other_headers
           (BoundHeader_init (two_column_form (Some (Some [2; -1]))) date_header)
           (BoundHeader_init (two_column_form (Some (Some [2; -1]))) title_header)
           (BoundHeader_init (two_column_form (Some (Some [-1]))) title_header)
           2 1); (reflexivity || lia).
Defined.

Lemma toggle_head (self : BoundHeader) (k : Z) (next : list Z) :
  _sort_index self = Ok k -> add_to_sorts self = Ok next ->
  exists first rest, next = first :: rest /\ Z.abs first = k.
Proof.
  intros Hk Hnext. pose proof (sort_index_positive _ _ Hk) as Hpos.
  destruct (add_to_sorts_cases self k Hk) as [next' [Hnext' Hcase]].
  assert (next' = next) by congruence. subst next'.
  destruct Hcase as [[first [rest [_ [Hfirst ->]]]] | [_ ->]].
  - exists (- first), rest. split; [reflexivity | lia].
  - eexists _, _. split; [reflexivity | lia].
Qed.

Lemma toggle_flip (self : BoundHeader) (k first : Z) (rest : list Z) :
  _sort_index self = Ok k -> sorts self = first :: rest -> Z.abs first = k ->
  add_to_sorts self = Ok (- first :: rest).
Proof.
  intros Hk Hsorts Hfirst.
  destruct (add_to_sorts_cases self k Hk) as [next [Hnext Hcase]].
  rewrite Hnext. destruct Hcase as [[first' [rest' [Hs [_ ->]]]] | [Hno _]].
  - congruence.
  - exfalso. now apply (Hno first rest).
Qed.

(** X12. After a click the clicked header leads the sorts: it is active with
    priority 1, and ascending when it was not active before. *)
Theorem clicked_header_leads (self after : BoundHeader) (k : Z) :
  _sort_index self = Ok k ->
  _sort_index after = Ok k ->
  add_to_sorts self = Ok (sorts after) ->
  is_active after = Ok true /\
  priority after = Ok (Some 1) /\
  (is_active self = Ok false -> is_ascending after = Ok true).
Proof.
  intros Hk Hafter Hclick.
  destruct (toggle_head self k _ Hk Hclick) as [first [rest [Hsorts Hfirst]]].
  assert (Hactive : is_active after = Ok true).
  { unfold is_active. rewrite Hafter, Hsorts. cbn [bind]. unfold contains.
    cbn [map existsb]. now rewrite (proj2 (Z.eqb_eq _ _) Hfirst). }
  split; [exact Hactive|]. split.
  - unfold priority. rewrite Hactive. cbn [bind]. rewrite Hafter, Hsorts.
    cbn [bind map Py.index]. now rewrite (proj2 (Z.eqb_eq _ _) Hfirst).
  - intros Hinactive.
    destruct (state_values self k Hk) as [Hact _]. rewrite Hact in Hinactive.
    injection Hinactive as Hinactive.
    destruct (state_values after k Hafter) as [Hact' [Hasc' _]].
    rewrite Hasc'. rewrite Hact' in Hactive. injection Hactive as ->. cbn [andb].
    destruct (add_to_sorts_cases self k Hk) as [next [Hnext Hcase]].
    assert (next = sorts after) by congruence. subst next.
    destruct Hcase as [[first' [rest' [Hs [Hf _]]]] | [_ ->]].
    + rewrite Hs in Hinactive. unfold contains in Hinactive.
      cbn [map existsb] in Hinactive.
      rewrite (proj2 (Z.eqb_eq _ _) Hf) in Hinactive. discriminate.
    + unfold contains. cbn [existsb]. now rewrite Z.eqb_refl.
Qed.

Lemma clicked_header_leads_witness :
  let after := BoundHeader_init (two_column_form (Some (Some [1; 2]))) title_header in
  is_active after = Ok true /\
  priority after = Ok (Some 1) /\
  (is_active (BoundHeader_init (two_column_form (Some (Some [2]))) title_header) = Ok false ->
   is_ascending after = Ok true).
Proof.
  apply (clicked_header_leads
           (BoundHeader_init (two_column_form (Some (Some [2]))) title_header)
           (BoundHeader_init (two_column_form (Some (Some [1; 2]))) title_header) 1);
    reflexivity.
Defined.

(** X13. A second click on the same header only reverses the direction of
    the leading sort, and a third click gives the result of the first
    again. *)
Theorem repeated_click_alternates (first_view second_view third_view : BoundHeader)
    (k : Z) :
  _sort_index first_view = Ok k ->
  _sort_index second_view = Ok k ->
  _sort_index third_view = Ok k ->
  add_to_sorts first_view = Ok (sorts second_view) ->
  add_to_sorts second_view = Ok (sorts third_view) ->
  exists lead rest,
    sorts second_view = lead :: rest /\
    sorts third_view = - lead :: rest /\
    add_to_sorts third_view = Ok (sorts second_view).
Proof.
  intros H1 H2 H3 Hclick1 Hclick2.
  destruct (toggle_head first_view k _ H1 Hclick1) as [lead [rest [Hsorts Hlead]]].
  exists lead, rest. split; [exact Hsorts|].
  pose proof (toggle_flip second_view k lead rest H2 Hsorts Hlead) as Hflip.
  assert (Hthird : sorts third_view = - lead :: rest) by congruence.
  split; [exact Hthird|].
  rewrite (toggle_flip third_view k (- lead) rest H3 Hthird) by lia.
  now rewrite Z.opp_involutive, Hsorts.
Qed.

Lemma repeated_click_alternates_witness :
  exists lead rest,
    sorts (BoundHeader_init (two_column_form (Some (Some [1; 2]))) title_header)
      = lead :: rest /\
    sorts (BoundHeader_init (two_column_form (Some (Some [-1; 2]))) title_header)
      = - lead :: rest /\
    add_to_sorts (BoundHeader_init (two_column_form (Some (Some [-1; 2]))) title_header)
      = Ok (sorts (BoundHeader_init (two_column_form (Some (Some [1; 2]))) title_header)).
Proof.
  apply (repeated_click_alternates
           (BoundHeader_init (two_column_form (Some (Some [2; -1]))) title_header)
           (BoundHeader_init (two_column_form (Some (Some [1; 2]))) title_header)
           (BoundHeader_init (two_column_form (Some (Some [-1; 2]))) title_header) 1);
    reflexivity.
Defined.

Lemma priority_some (self : BoundHeader) (p : Z) :
  priority self = Ok (Some p) ->
  exists k i, _sort_index self = Ok k /\ p = Z.of_nat i + 1 /\
              nth_error (map Z.abs (sorts self)) i = Some k.
Proof.
  unfold priority, is_active. intros H.
  destruct (_sort_index self) as [k|e] eqn:Hk; [|discriminate]. cbn [bind] in H.
  destruct (contains k (map Z.abs (sorts self))); [|discriminate].
  destruct (Py.index Z.eqb k (map Z.abs (sorts self))) as [i|e] eqn:Hi; [|discriminate].
  cbn [bind] in H. injection H as <-.
  destruct (index_found Z.eqb k _ i Hi) as [[y [Hy Hyk]] _].
  apply Z.eqb_eq in Hyk. subst y. now exists k, i.
Qed.

(** X14. A priority lies between 1 and the number of sorts, and for the
    same sorts two headers with the same priority have the same sort index:
    the active headers are ranked without ties. *)
Theorem priorities_rank_without_ties (self : BoundHeader) (p : Z) :
  priority self = Ok (Some p) ->
  1 <= p <= Z.of_nat (List.length (sorts self)) /\
  (forall other,
      sorts other = sorts self -> priority other = Ok (Some p) ->
      _sort_index other = _sort_index self).
Proof.
  intros Hp. destruct (priority_some self p Hp) as [k [i [Hk [-> Hnth]]]]. split.
  - assert (Hlt : (i < List.length (map Z.abs (sorts self)))%nat).
    { apply nth_error_Some. congruence. }
    rewrite length_map in Hlt. lia.
  - intros other Hsame Hq.
    destruct (priority_some other _ Hq) as [k' [j [Hk' [Hj Hnth']]]].
    assert (j = i) by lia. subst j. rewrite Hsame in Hnth'. congruence.
Qed.

Lemma priorities_rank_without_ties_witness :
  let self := BoundHeader_init (two_column_form (Some (Some [2; -1]))) title_header in
  1 <= 2 <= Z.of_nat (List.length (sorts self)) /\
  (forall other,
      sorts other = sorts self -> priority other = Ok (Some 2) ->
      _sort_index other = _sort_index self).
Proof.
  apply (priorities_rank_without_ties
           (BoundHeader_init (two_column_form (Some (Some [2; -1]))) title_header) 2).
  reflexivity.
Defined.

(** X15. When no sort after the first shares the header's magnitude with
    the first, following the header's remove link leaves the header
    inactive: no direction, no priority, no css class. *)
Theorem removed_header_inactive (self after : BoundHeader) (k : Z) :
  _sort_index self = Ok k ->
  _sort_index after = Ok k ->
  (forall first rest,
      sorts self = first :: rest -> Z.abs first = k -> ~ In k (map Z.abs rest)) ->
  remove_sorts self = Ok (sorts after) ->
  is_active after = Ok false /\
  is_ascending after = Ok false /\
  is_descending after = Ok false /\
  priority after = Ok None /\
  css_classes after = Ok "".
Proof.
  intros Hk Hafter Hhead Hremove.
  destruct (add_to_sorts_cases self k Hk) as [next [Hnext Hcase]].
  unfold remove_sorts in Hremove. rewrite Hnext in Hremove. cbn [bind] in Hremove.
  injection Hremove as Hremove.
  assert (Hgone : contains k (map Z.abs (sorts after)) = false).
  { apply not_true_is_false. rewrite contains_In, <- Hremove.
    destruct Hcase as [[first [rest [Hs [Hfirst ->]]]] | [_ ->]]; cbn [tl].
    - now apply (Hhead first rest).
    - apply filter_magnitudes. }
  destruct (state_values after k Hafter) as [Hact [Hasc [Hdesc [Hcss Hprio]]]].
  rewrite Hgone in *. cbn [andb] in *. repeat split; auto.
Qed.

Lemma removed_header_inactive_witness :
  let after := BoundHeader_init (two_column_form (Some (Some [2]))) title_header in
  is_active after = Ok false /\
  is_ascending after = Ok false /\
  is_descending after = Ok false /\
  priority after = Ok None /\
  css_classes after = Ok "".
Proof.
  apply (removed_header_inactive
           (BoundHeader_init (two_column_form (Some (Some [2; -1]))) title_header)
           (BoundHeader_init (two_column_form (Some (Some [2]))) title_header) 1).
  - reflexivity.
  - reflexivity.
  - intros first rest [= <- <-]. simpl. lia.
  - reflexivity.
Defined.

(** ** Construction and the header set *)

Lemma count_distinct_NoDup (xs : list string) :
  NoDup xs -> count_distinct xs = List.length xs.
Proof.
  intros H. unfold count_distinct. now rewrite nodup_fixed_point.
Qed.

(** X16. [SortForm.__init__] succeeds exactly when a queryset or a model is
    there and no two headers share a name; it raises nothing but
    [AttributeError]; and the form it returns holds the registry as declared,
    in its header set too, and no cleaned data yet. *)
Theorem SortForm_init_outcomes (hs : list Header) (pre : option string)
    (model : option string) (queryset : option QuerySet) :
  ((exists f, SortForm_init hs pre model queryset = Ok f) <->
   (queryset <> None \/ model <> None) /\ NoDup (map name hs)) /\
  (forall e, SortForm_init hs pre model queryset = Raise e -> e = AttributeError) /\
  (forall f, SortForm_init hs pre model queryset = Ok f ->
             HEADERS f = hs /\ prefix f = pre /\ cleaned_data f = None /\
             SortedDict_values (headers f) = hs).
Proof.
  split; [|split].
  - split.
    + intros [f Hf]. unfold SortForm_init in Hf.
      apply bind_ok in Hf. destruct Hf as [base [Hbase Hf]]. split.
      * unfold BaseChangeListForm_init in Hbase.
        destruct queryset; [left; discriminate|].
        destruct model; [right; discriminate | discriminate].
      * destruct (Nat.eqb_spec (count_distinct (map name hs)) (List.length hs))
          as [Heq|]; [|discriminate].
        apply count_distinct_all. now rewrite length_map.
    + intros [Hbase Hnd]. unfold SortForm_init.
      assert (Hok : exists base, BaseChangeListForm_init model queryset = Ok base).
      { unfold BaseChangeListForm_init.
        destruct queryset; [eauto|]. destruct model; [eauto|].
        destruct Hbase as [H | H]; now contradiction H. }
      destruct Hok as [base ->]. cbn [bind].
      rewrite (count_distinct_NoDup _ Hnd), length_map, Nat.eqb_refl. cbn [negb].
      eexists. reflexivity.
  - intros e He. unfold SortForm_init, BaseChangeListForm_init in He.
    destruct queryset; [|destruct model]; cbn [bind] in He;
      try (destruct (negb _)); congruence.
  - intros f Hf. unfold SortForm_init in Hf.
    apply bind_ok in Hf. destruct Hf as [base [_ Hf]].
    destruct (Nat.eqb_spec (count_distinct (map name hs)) (List.length hs))
      as [Heq|]; [|discriminate].
    cbn [negb] in Hf. injection Hf as <-. cbn. repeat split.
    apply HeaderSet_values. apply count_distinct_all. now rewrite length_map.
Qed.

Lemma truthy_append (s t : string) : Py.truthy t = true -> Py.truthy (s ++ t) = true.
Proof.
  destruct s; simpl; auto.
Qed.

Lemma rstrip_append (p : ascii -> bool) (s t : string) :
  Py.rstrip p t = t -> Py.truthy t = true -> Py.rstrip p (s ++ t) = s ++ t.
Proof.
  intros Ht Hne. induction s as [|c r IH]; [exact Ht|].
  change (String c r ++ t) with (String c (r ++ t)).
  apply rstrip_cons; [exact IH | now apply truthy_append].
Qed.

(** X17. The parameter name of the links is [sorts] for a form without
    prefix, and the prefix followed by [-sorts] for a prefix that does not
    start with a minus sign. *)
Theorem param_of_prefix (f : SortForm) (h : Header) :
  (prefix f = None \/ prefix f = Some "" -> param (BoundHeader_init f h) = "sorts") /\
  (forall c r,
      prefix f = Some (String c r) -> c <> "-"%char ->
      param (BoundHeader_init f h) = String c r ++ "-sorts").
Proof.
  cbn [BoundHeader_init param]. split.
  - intros [-> | ->]; reflexivity.
  - intros c r -> Hc. unfold Py.strip_minus, Py.strip_chars.
    change (String c r ++ "-sorts") with (String c (r ++ "-sorts")).
    rewrite lstrip_head by (apply Ascii.eqb_neq; congruence).
    change (String c (r ++ "-sorts")) with (String c r ++ "-sorts").
    now apply rstrip_append.
Qed.

Lemma HeaderSet_entries (hs : list Header) :
  NoDup (map name hs) -> HeaderSet_init hs = map (fun h => (name h, h)) hs.
Proof.
  intros Hnd. unfold HeaderSet_init. now rewrite HeaderSet_fold.
Qed.

Lemma lookup_by_name (hs : list Header) (h : Header) :
  NoDup (map name hs) -> In h hs ->
  SortedDict_getitem (map (fun h => (name h, h)) hs) (name h) = Ok h.
Proof.
  induction hs as [|a hs IH]; simpl; intros Hnd Hin; [contradiction|].
  inversion Hnd as [|? ? Hnotin Hrest]; subst.
  destruct (String.eqb_spec (name a) (name h)) as [Heq|Hne].
  - destruct Hin as [-> | Hin]; [reflexivity|].
    exfalso. apply Hnotin. rewrite Heq. now apply in_map.
  - destruct Hin as [-> | Hin]; [congruence | now apply IH].
Qed.

Lemma lookup_missing (hs : list Header) (s : string) :
  ~ In s (map name hs) ->
  SortedDict_getitem (map (fun h => (name h, h)) hs) s = Raise KeyError.
Proof.
  induction hs as [|a hs IH]; simpl; intros Hnotin; [reflexivity|].
  destruct (String.eqb_spec (name a) s) as [Heq|_]; [tauto|]. apply IH. tauto.
Qed.

(** X18. In a form built by [SortForm.__init__] the header set yields one
    bound header per declared header, in order.  An [int] key from [-n] to
    [n - 1] reads the header at that position, counted from the end when
    negative, and any other [int] raises [IndexError]; a [long] raises
    [KeyError]; a name reads the header declared under it and raises
    [KeyError] when there is none. *)
Theorem header_set_indexing (f : SortForm) :
  NoDup (map name (HEADERS f)) ->
  headers f = HeaderSet_init (HEADERS f) ->
  let n := Z.of_nat (List.length (HEADERS f)) in
  HeaderSet_iter f = map (BoundHeader_init f) (HEADERS f) /\
  (forall i, - n <= i < n ->
     exists h, nth_error (HEADERS f) (Z.to_nat (i mod n)) = Some h /\
               HeaderSet_getitem f (int_key i) = Ok (BoundHeader_init f h)) /\
  (forall i, i < - n \/ n <= i -> HeaderSet_getitem f (int_key i) = Raise IndexError) /\
  (forall m, HeaderSet_getitem f (long_key m) = Raise KeyError) /\
  (forall h, In h (HEADERS f) ->
             HeaderSet_getitem f (name_key (name h)) = Ok (BoundHeader_init f h)) /\
  (forall s, ~ In s (map name (HEADERS f)) ->
             HeaderSet_getitem f (name_key s) = Raise KeyError).
Proof.
  intros Hnd Hset n. unfold HeaderSet_iter, HeaderSet_getitem.
  rewrite Hset, (HeaderSet_values _ Hnd), (HeaderSet_entries _ Hnd).
  split; [reflexivity|]. split; [|split; [|split; [|split]]].
  - intros i Hi.
    destruct (getitem_wraps_in_range (HEADERS f) i Hi) as [h [Hget Hnth]].
    exists h. split; [exact Hnth | now rewrite Hget].
  - intros i Hi. now rewrite getitem_out_of_range.
  - reflexivity.
  - intros h Hin. now rewrite (lookup_by_name _ _ Hnd Hin).
  - intros s Hs. now rewrite (lookup_missing _ _ Hs).
Qed.

Lemma header_set_indexing_witness :
  let f := two_column_form None in
  HeaderSet_iter f = map (BoundHeader_init f) [title_header; date_header] /\
  (forall i, - 2 <= i < 2 ->
     exists h, nth_error [title_header; date_header] (Z.to_nat (i mod 2)) = Some h /\
               HeaderSet_getitem f (int_key i) = Ok (BoundHeader_init f h)) /\
  (forall i, i < - 2 \/ 2 <= i -> HeaderSet_getitem f (int_key i) = Raise IndexError) /\
  (forall m, HeaderSet_getitem f (long_key m) = Raise KeyError) /\
  (forall h, In h [title_header; date_header] ->
             HeaderSet_getitem f (name_key (name h)) = Ok (BoundHeader_init f h)) /\
  (forall s, ~ In s (map name [title_header; date_header]) ->
             HeaderSet_getitem f (name_key s) = Raise KeyError).
Proof.
  apply (header_set_indexing (two_column_form None)).
  - simpl. repeat constructor; simpl; intuition discriminate.
  - reflexivity.
Defined.

(** X19. The text of a list of integers is accepted, and decoded to that
    list, exactly when each integer on its own passes the range check and
    reads a sortable header: neither the order of the sorts nor a repeated
    column plays a part. *)
Theorem encoded_accepted_iff (self : SortForm) (d : list Z) :
  clean_sorts self (encode_sorts d) = Ok d <-> Forall (passes_checks (HEADERS self)) d.
Proof.
  split.
  - intros H. now apply clean_sorts_ok_parts in H.
  - apply checks_encode.
Qed.

(** ** Search forms *)

(** X20. [SearchForm.__init__] raises [AttributeError] exactly when there is
    neither a queryset nor a model, whatever the fields are, and raises
    nothing but that and [ImproperlyConfigured]; a [search_fields] argument,
    even [None], decides alone, the class attribute is then not looked at. *)
Theorem SearchForm_init_outcomes (cls_fields : option (list string))
    (case_sensitive : bool) (model : option string)
    (search_fields : option (option (list string))) (queryset : option QuerySet) :
  (SearchForm_init cls_fields case_sensitive model search_fields queryset
   = Raise AttributeError <-> queryset = None /\ model = None) /\
  (forall e,
      SearchForm_init cls_fields case_sensitive model search_fields queryset = Raise e ->
      e = AttributeError \/ e = ImproperlyConfigured) /\
  (forall given other,
      search_fields = Some given ->
      SearchForm_init cls_fields case_sensitive model search_fields queryset
      = SearchForm_init other case_sensitive model search_fields queryset).
Proof.
  unfold SearchForm_init, BaseChangeListForm_init. split; [|split].
  - destruct queryset; [|destruct model]; cbn [bind];
      destruct (match search_fields with Some given => given | None => cls_fields end);
      split; try discriminate; try tauto; intros [? ?]; discriminate.
  - intros e. destruct queryset; [|destruct model]; cbn [bind];
      destruct (match search_fields with Some given => given | None => cls_fields end);
      intros [= <-]; auto.
  - intros given other ->. reflexivity.
Qed.

Section SearchOrder.
Variable Row : Type.
Variable lookup_holds : string -> string -> Row -> bool.

(** What the search filters by, for a term that is not blank. *)
Lemma search_predicate (self : SearchForm) (q : string) :
  SEARCH_FIELDS self <> [] ->
  cleaned_q self = Some q ->
  Py.strip q <> "" ->
  exists predicate,
    SearchForm_get_queryset self = qs_filter (search_base_queryset self) predicate /\
    forall row,
      Q_holds Row lookup_holds predicate row
      = existsb (fun field =>
                   lookup_holds
                     (field ++ (if CASE_SENSITIVE self then "__contains" else "__icontains"))
                     (Py.strip q) row)
                (SEARCH_FIELDS self).
Proof.
  intros Hfields Hq Hterm. unfold SearchForm_get_queryset. rewrite Hq.
  destruct (Py.truthy (Py.strip q)) eqn:Et.
  2:{ apply truthy_empty in Et. contradiction. }
  set (suffix := if CASE_SENSITIVE self then "__contains" else "__icontains").
  assert (Hleaf : forall field,
            (if CASE_SENSITIVE self then Q_kw (field ++ "__contains") (Py.strip q)
             else Q_kw (field ++ "__icontains") (Py.strip q))
            = Q_kw (field ++ suffix) (Py.strip q)).
  { intros field. unfold suffix. now destruct (CASE_SENSITIVE self). }
  rewrite (map_ext _ _ Hleaf).
  destruct (SEARCH_FIELDS self) as [|f1 [|f2 fs]]; [contradiction| |].
  - eexists. split; [reflexivity|]. intros row. simpl. now rewrite orb_false_r.
  - exists (Py.reduce Q_or (Q_kw (f1 ++ suffix) (Py.strip q))
              (map (fun field => Q_kw (field ++ suffix) (Py.strip q)) (f2 :: fs))).
    split; [reflexivity|].
    intros row. rewrite reduce_or_holds, existsb_map. reflexivity.
Qed.

(** X21. Two search forms with the same flag and the same term that is not
    blank, whose field lists hold the same fields in whatever order and
    however often, filter by predicates that hold on the same rows. *)
Theorem search_ignores_field_order (a b : SearchForm) (q : string) :
  SEARCH_FIELDS a <> [] ->
  (forall field, In field (SEARCH_FIELDS a) <-> In field (SEARCH_FIELDS b)) ->
  CASE_SENSITIVE a = CASE_SENSITIVE b ->
  cleaned_q a = Some q -> cleaned_q b = Some q ->
  Py.strip q <> "" ->
  exists pa pb,
    SearchForm_get_queryset a = qs_filter (search_base_queryset a) pa /\
    SearchForm_get_queryset b = qs_filter (search_base_queryset b) pb /\
    forall row, Q_holds Row lookup_holds pa row = Q_holds Row lookup_holds pb row.
Proof.
  intros Hfields Hsame Hflag Hqa Hqb Hterm.
  assert (Hfields' : SEARCH_FIELDS b <> []).
  { destruct (SEARCH_FIELDS a) as [|x xs]; [contradiction|].
    intros Hb. rewrite Hb in Hsame. apply (proj1 (Hsame x)). now left. }
  destruct (search_predicate a q Hfields Hqa Hterm) as [pa [Ha Hpa]].
  destruct (search_predicate b q Hfields' Hqb Hterm) as [pb [Hb Hpb]].
  exists pa, pb. split; [exact Ha|]. split; [exact Hb|].
  intros row. rewrite Hpa, Hpb, Hflag.
  apply eq_true_iff_eq. rewrite !existsb_exists.
  split; intros [field [Hin Hholds]]; exists field; (split; [now apply Hsame | exact Hholds]).
Qed.
End SearchOrder.

Lemma search_ignores_field_order_witness :
  exists pa pb,
    SearchForm_get_queryset
      {| SEARCH_FIELDS := ["name"; "email"]; CASE_SENSITIVE := false;
         search_base_queryset := books; cleaned_q := Some "abc" |}
    = qs_filter books pa /\
    SearchForm_get_queryset
      {| SEARCH_FIELDS := ["email"; "name"; "email"]; CASE_SENSITIVE := false;
         search_base_queryset := books; cleaned_q := Some "abc" |}
    = qs_filter books pb /\
    forall row : string,
      Q_holds string (fun lookup value row => String.eqb row lookup) pa row
      = Q_holds string (fun lookup value row => String.eqb row lookup) pb row.
Proof.
  apply (search_ignores_field_order string (fun lookup value row => String.eqb row lookup)
           {| SEARCH_FIELDS := ["name"; "email"]; CASE_SENSITIVE := false;
              search_base_queryset := books; cleaned_q := Some "abc" |}
           {| SEARCH_FIELDS := ["email"; "name"; "email"]; CASE_SENSITIVE := false;
              search_base_queryset := books; cleaned_q := Some "abc" |}
           "abc").
  - discriminate.
  - intros field. simpl. tauto.
  - reflexivity.
  - reflexivity.
  - reflexivity.
  - discriminate.
Defined.
